(** * promote.py: promotion of a branch to a deployment stage

    A shallow embedding of [promote.py] and of the collaborators it talks
    to (the python-semver functions it calls, the git commands it spawns,
    the GitHub releases endpoint, the environment and the files it opens),
    followed by the properties of the promotion workflow.

    The script is sequential and every call is blocking, so it is embedded
    as a computation in a state-and-exception monad over a [World]. *)

From Stdlib Require Import ZArith NArith List Ascii String Bool Lia.
From Stdlib Require Import Decimal DecimalString DecimalN.
From stdpp Require Import gmap strings list fin_maps.

Local Open Scope string_scope.
Local Open Scope list_scope.

(** ** Python built-ins used by the script *)

Module Py.

(** [bool(s)] for a [str]. *)
Definition truthy (s : string) : bool :=
  match s with
  | EmptyString => false
  | String _ _ => true
  end.

(** [bool(o)] for a value that is [None] or a [str]. *)
Definition truthy_opt (o : option string) : bool :=
  match o with
  | None => false
  | Some s => truthy s
  end.

(** [s.split(sep)] for a one-character separator. *)
Fixpoint split (sep : ascii) (s : string) : list string :=
  match s with
  | EmptyString => [EmptyString]
  | String c s' =>
      if Ascii.eqb c sep then EmptyString :: split sep s'
      else match split sep s' with
           | [] => [String c EmptyString]
           | x :: xs => String c x :: xs
           end
  end.

(** [sep.join(l)]. *)
Definition join (sep : string) (l : list string) : string :=
  String.concat sep l.

(** [s.startswith(p)]. *)
Definition startswith (s p : string) : bool := String.prefix p s.

(** [s[1:-1]]. *)
Definition slice_1_m1 (s : string) : string :=
  String.substring 1 (String.length s - 2) s.

(** [s[:n]] for [n >= 0]. *)
Definition take (n : nat) (s : string) : string := String.substring 0 n s.

(** [s[n:]] for [n >= 0]. *)
Definition drop (n : nat) (s : string) : string :=
  String.substring n (String.length s - n) s.

Definition is_space (c : ascii) : bool :=
  let n := N_of_ascii c in
  ((9 <=? n) && (n <=? 13) || (28 <=? n) && (n <=? 32))%N.

Fixpoint lstrip (s : string) : string :=
  match s with
  | EmptyString => EmptyString
  | String c s' => if is_space c then lstrip s' else s
  end.

Fixpoint rstrip (s : string) : string :=
  match s with
  | EmptyString => EmptyString
  | String c s' =>
      match rstrip s' with
      | EmptyString => if is_space c then EmptyString else String c EmptyString
      | r => String c r
      end
  end.

(** [s.strip()]. *)
Definition strip (s : string) : string := rstrip (lstrip s).

(** [s.replace(old, new)] for a non-empty [old]: [skip] counts the
    characters of a matched occurrence still to be dropped. *)
Fixpoint replace_from (old new : string) (skip : nat) (s : string) : string :=
  match s with
  | EmptyString => EmptyString
  | String c s' =>
      match skip with
      | S k => replace_from old new k s'
      | O =>
          if String.prefix old s
          then new +:+ replace_from old new (String.length old - 1) s'
          else String c (replace_from old new 0 s')
      end
  end.

Definition replace (s old new : string) : string := replace_from old new 0 s.

Definition is_digit (c : ascii) : bool :=
  let n := N_of_ascii c in ((48 <=? n) && (n <=? 57))%N.

Fixpoint all_chars (p : ascii -> bool) (s : string) : bool :=
  match s with
  | EmptyString => true
  | String c s' => p c && all_chars p s'
  end.

(** [str(n)] for a non-negative [int]. *)
Definition str_of_int (n : N) : string := NilZero.string_of_uint (N.to_uint n).

(** [int(s)] for a string of decimal digits; [None] stands for [ValueError]. *)
Definition int_of_str (s : string) : option N :=
  match NilZero.uint_of_string s with
  | Some d => Some (N.of_uint d)
  | None => None
  end.

End Py.

(** ** The python-semver functions called by the script

    [promote.py] imports the third-party package [semver] and uses its
    module-level functions [parse_version_info], [bump_major],
    [bump_minor], [bump_patch], [bump_prerelease], [finalize_version] and
    the class [VersionInfo] with its ordering (the 2.x line of the
    package, the one that has these functions).  They are transcribed here
    from that package; [None] stands for the [ValueError] it raises. *)

Module semver.

Record VersionInfo := mkVersion {
  major : N;
  minor : N;
  patch : N;
  prerelease : option string;
  build : option string
}.

(** Character classes of the package's [_REGEX]. *)
Definition is_nonzero_digit (c : ascii) : bool :=
  let n := N_of_ascii c in ((49 <=? n) && (n <=? 57))%N.

Definition is_letter_or_hyphen (c : ascii) : bool :=
  let n := N_of_ascii c in
  ((65 <=? n) && (n <=? 90) || (97 <=? n) && (n <=? 122) || (n =? 45))%N.

Definition is_id_char (c : ascii) : bool :=
  Py.is_digit c || is_letter_or_hyphen c.

(** [0|[1-9][0-9]*] *)
Definition is_numeric_id (s : string) : bool :=
  match s with
  | EmptyString => false
  | String c r =>
      (Ascii.eqb c "0" && negb (Py.truthy r))
      || (is_nonzero_digit c && Py.all_chars Py.is_digit r)
  end.

(** [0|[1-9A-Za-z-][0-9A-Za-z-]*] *)
Definition is_prerelease_id (s : string) : bool :=
  match s with
  | EmptyString => false
  | String c r =>
      (Ascii.eqb c "0" && negb (Py.truthy r))
      || ((is_nonzero_digit c || is_letter_or_hyphen c) && Py.all_chars is_id_char r)
  end.

(** [[0-9A-Za-z-]+] *)
Definition is_build_id (s : string) : bool :=
  Py.truthy s && Py.all_chars is_id_char s.

(** Cut [s] at the first occurrence of [c]. *)
Fixpoint cut (c : ascii) (s : string) : string * option string :=
  match s with
  | EmptyString => (EmptyString, None)
  | String a s' =>
      if Ascii.eqb a c then (EmptyString, Some s')
      else let '(l, r) := cut c s' in (String a l, r)
  end.

(** The anchor [$] of a Python pattern also matches before a final
    line feed. *)
Fixpoint chomp (s : string) : string :=
  match s with
  | EmptyString => EmptyString
  | String c s' =>
      match s' with
      | EmptyString => if Ascii.eqb c "010" then EmptyString else s
      | _ => String c (chomp s')
      end
  end.

Definition ids_ok (p : string -> bool) (o : option string) : bool :=
  match o with
  | None => true
  | Some s => forallb p (Py.split "." s)
  end.

(** [semver.parse] followed by the construction of the [VersionInfo],
    that is [semver.parse_version_info]. *)
Definition parse_version_info (version : string) : option VersionInfo :=
  let '(rest, bld) := cut "+" (chomp version) in
  let '(core, pre) := cut "-" rest in
  match Py.split "." core with
  | [a; b; c] =>
      if is_numeric_id a && is_numeric_id b && is_numeric_id c
         && ids_ok is_prerelease_id pre && ids_ok is_build_id bld
      then
        match Py.int_of_str a, Py.int_of_str b, Py.int_of_str c with
        | Some ma, Some mi, Some pa => Some (mkVersion ma mi pa pre bld)
        | _, _, _ => None
        end
      else None
  | _ => None
  end.

(** [semver.format_version]. *)
Definition format_version (ma mi pa : N) (pre bld : option string) : string :=
  let version := Py.str_of_int ma +:+ "." +:+ Py.str_of_int mi +:+ "." +:+ Py.str_of_int pa in
  let version := match pre with Some p => version +:+ "-" +:+ p | None => version end in
  match bld with Some b => version +:+ "+" +:+ b | None => version end.

(** [str(v)] for a [VersionInfo]. *)
Definition str (v : VersionInfo) : string :=
  format_version (major v) (minor v) (patch v) (prerelease v) (build v).

(** The span of the last maximal run of digits of [s], as
    [(start, end)]: what group 1 of [_LAST_NUMBER] holds after a
    search.  [last_number_from i run found s] reads [s] from index [i];
    [run] is the start of the run of digits being read, if any, and
    [found] the last run that was read to its end. *)
Fixpoint last_number_from (i : nat) (run : option nat) (found : option (nat * nat))
    (s : string) : option (nat * nat) :=
  match s with
  | EmptyString =>
      match run with Some st => Some (st, i) | None => found end
  | String c s' =>
      if Py.is_digit c then
        last_number_from (S i) (match run with Some st => Some st | None => Some i end) found s'
      else
        last_number_from (S i) None
          (match run with Some st => Some (st, i) | None => found end) s'
  end.

Definition last_number (s : string) : option (nat * nat) :=
  last_number_from 0 None None s.

(** [semver._increment_string]. *)
Definition _increment_string (s : string) : string :=
  match last_number s with
  | Some (start, end_) =>
      match Py.int_of_str (String.substring start (end_ - start) s) with
      | Some n =>
          let next_ := Py.str_of_int (n + 1) in
          Py.take (Nat.max (end_ - String.length next_) start) s
            +:+ next_ +:+ Py.drop end_ s
      | None => s
      end
  | None => s
  end.

(** [a or b] on an optional string. *)
Definition or_else (o : option string) (d : string) : string :=
  match o with
  | Some s => if Py.truthy s then s else d
  | None => d
  end.

Definition bump_major (version : string) : option string :=
  match parse_version_info version with
  | Some v => Some (format_version (major v + 1) 0 0 None None)
  | None => None
  end.

Definition bump_minor (version : string) : option string :=
  match parse_version_info version with
  | Some v => Some (format_version (major v) (minor v + 1) 0 None None)
  | None => None
  end.

Definition bump_patch (version : string) : option string :=
  match parse_version_info version with
  | Some v => Some (format_version (major v) (minor v) (patch v + 1) None None)
  | None => None
  end.

Definition bump_prerelease (version : string) (token : string) : option string :=
  match parse_version_info version with
  | Some v =>
      let pre := _increment_string (or_else (prerelease v) (or_else (Some token) "rc" +:+ ".0")) in
      Some (format_version (major v) (minor v) (patch v) (Some pre) None)
  | None => None
  end.

Definition bump_build (version : string) (token : string) : option string :=
  match parse_version_info version with
  | Some v =>
      let bld := _increment_string (or_else (build v) (or_else (Some token) "build" +:+ ".0")) in
      Some (format_version (major v) (minor v) (patch v) (prerelease v) (Some bld))
  | None => None
  end.

Definition finalize_version (version : string) : option string :=
  match parse_version_info version with
  | Some v => Some (format_version (major v) (minor v) (patch v) None None)
  | None => None
  end.

(** Ordering: [_nat_cmp] on the prerelease labels. *)
Inductive part := PInt (n : N) | PStr (s : string).

Definition convert (text : string) : part :=
  if Py.truthy text && Py.all_chars Py.is_digit text then
    match Py.int_of_str text with
    | Some n => PInt n
    | None => PStr text
    end
  else PStr text.

Definition split_key (key : string) : list part := map convert (Py.split "." key).

Definition cmp_prerelease_tag (a b : part) : comparison :=
  match a, b with
  | PInt x, PInt y => N.compare x y
  | PInt _, PStr _ => Lt
  | PStr _, PInt _ => Gt
  | PStr x, PStr y => String.compare x y
  end.

(** The loop over [zip(a_parts, b_parts)]; [len_cmp] is the result of
    its [else] clause. *)
Fixpoint cmp_parts (len_cmp : comparison) (a b : list part) : comparison :=
  match a, b with
  | x :: a', y :: b' =>
      match cmp_prerelease_tag x y with
      | Eq => cmp_parts len_cmp a' b'
      | c => c
      end
  | _, _ => len_cmp
  end.

Definition _nat_cmp (a b : option string) : comparison :=
  let a := or_else a EmptyString in
  let b := or_else b EmptyString in
  cmp_parts (Nat.compare (String.length a) (String.length b)) (split_key a) (split_key b).

(** [_compare_by_keys]: the build label takes no part in it. *)
Definition compare (v1 v2 : VersionInfo) : comparison :=
  match N.compare (major v1) (major v2) with
  | Eq =>
      match N.compare (minor v1) (minor v2) with
      | Eq =>
          match N.compare (patch v1) (patch v2) with
          | Eq =>
              match _nat_cmp (prerelease v1) (prerelease v2) with
              | Eq => Eq
              | rccmp =>
                  if negb (Py.truthy_opt (prerelease v1)) then Gt
                  else if negb (Py.truthy_opt (prerelease v2)) then Lt
                  else rccmp
              end
          | c => c
          end
      | c => c
      end
  | c => c
  end.

(** [v1 > v2]. *)
Definition gt (v1 v2 : VersionInfo) : bool :=
  match compare v1 v2 with Gt => true | _ => false end.

(** [max(versions)]: the first greatest element; [None] stands for the
    [ValueError] raised on an empty list. *)
Fixpoint max_from (cur : VersionInfo) (l : list VersionInfo) : VersionInfo :=
  match l with
  | [] => cur
  | x :: l' => max_from (if gt x cur then x else cur) l'
  end.

Definition max (l : list VersionInfo) : option VersionInfo :=
  match l with
  | [] => None
  | x :: l' => Some (max_from x l')
  end.

End semver.

(** ** Exceptions and results *)

Inductive exn :=
| SystemExit (code : Z)                 (* raised by [exit(code)] *)
| CalledProcessError (cmd : list string) (* [subprocess.run(..., check=True)] *)
| ValueError
| KeyError (key : string)
| AttributeError (name : string)
| OSError (file : string)               (* [open] or [os.chdir] failed *)
| JSONDecodeError
| ConnectionError                       (* [requests] could not reach the server *)
| HTTPError (status : N)                (* [raise_for_status] *)
| ClientError.                          (* [boto3] *)

Inductive res (A : Type) :=
| Ok (a : A)
| Raise (e : exn).
Arguments Ok {A} a.
Arguments Raise {A} e.

(** The status the interpreter exits with: 0 at the end of the script, the
    argument of [exit], 1 after an uncaught exception. *)
Definition exit_code {A} (r : res A) : Z :=
  match r with
  | Ok _ => 0
  | Raise (SystemExit code) => code
  | Raise _ => 1
  end.

Definition lf : ascii := "010"%char.
Definition nl : string := String lf EmptyString.
Definition dq : string := String "034"%char EmptyString.

(** ** The world the script runs in *)

(** A commit of the local object store: the paths are those it changes
    with respect to its first parent. *)
Record Commit := mkCommit {
  c_id : string;
  c_parents : list string;
  c_subject : string;
  c_paths : list string
}.

Inductive Head :=
| Detached (c : string)
| OnBranch (b : string).

(** The local repository.  [g_commits] lists the object store newest
    first, every commit before its parents, which is the order [git log]
    prints in. *)
Record Git := mkGit {
  g_diff : string;                  (* what [git diff] prints for the working tree *)
  g_commits : list Commit;
  g_head : Head;
  g_heads : gmap string string;     (* refs/heads *)
  g_tracking : gmap string string;  (* refs/remotes/origin *)
  g_url : string                    (* remote.origin.url *)
}.

(** The JSON body of the request that creates a release. *)
Record ReleaseBody := mkBody {
  rb_tag_name : string;
  rb_name : string;
  rb_prerelease : bool;
  rb_draft : bool;
  rb_target_commitish : string;
  rb_body : string
}.

(** The hosting service: the branches of the remote repository, the tags
    of the releases its listing returns, the drafts created so far, and
    how it answers. *)
Record Hub := mkHub {
  h_branches : gmap string string;
  h_releases : list string;
  h_drafts : list ReleaseBody;
  h_listing : bool;                 (* the listing can be fetched *)
  h_accepts_push : bool;
  h_post_status : option N          (* status of the answer to a POST, if any *)
}.

(** [release_config.json], decoded. *)
Record StageConfig := mkStage {
  source : string;
  destination : string;
  prerelease : bool
}.

Record Config := mkConfig {
  repository : string;
  release_map : gmap string StageConfig
}.

Inductive event :=
| EvPrint (text : string)
| EvRun (args : list string)
| EvGet (url : string)
| EvPost (url authorization : string) (body : ReleaseBody)
| EvWrite (file content : string).

(** Files are named by the directory the process is in and the path as
    it is given to [open]. *)
Record World := mkWorld {
  w_env : gmap string string;
  w_home : string;
  w_cwd : string;
  w_dirs : gset string;                     (* directories [os.chdir] can enter *)
  w_files : gmap (string * string) string;
  w_locked : gset (string * string);        (* files that cannot be opened for writing *)
  w_json : string -> option Config;         (* [json.load] on the text of a file *)
  w_secrets : gmap string string;
  w_git : Git;
  w_hub : Hub;
  w_log : list event                        (* oldest first *)
}.

Definition set_log (f : list event -> list event) (w : World) : World :=
  mkWorld (w_env w) (w_home w) (w_cwd w) (w_dirs w) (w_files w) (w_locked w) (w_json w)
    (w_secrets w) (w_git w) (w_hub w) (f (w_log w)).

Definition set_cwd (d : string) (w : World) : World :=
  mkWorld (w_env w) (w_home w) d (w_dirs w) (w_files w) (w_locked w) (w_json w)
    (w_secrets w) (w_git w) (w_hub w) (w_log w).

Definition set_files (f : gmap (string * string) string) (w : World) : World :=
  mkWorld (w_env w) (w_home w) (w_cwd w) (w_dirs w) f (w_locked w) (w_json w)
    (w_secrets w) (w_git w) (w_hub w) (w_log w).

Definition set_git (g : Git) (w : World) : World :=
  mkWorld (w_env w) (w_home w) (w_cwd w) (w_dirs w) (w_files w) (w_locked w) (w_json w)
    (w_secrets w) g (w_hub w) (w_log w).

Definition set_hub (h : Hub) (w : World) : World :=
  mkWorld (w_env w) (w_home w) (w_cwd w) (w_dirs w) (w_files w) (w_locked w) (w_json w)
    (w_secrets w) (w_git w) h (w_log w).

Definition log (e : event) : World -> World := set_log (fun l => l ++ [e]).

(** ** The monad of the script: state and exceptions *)

Definition M (A : Type) : Type := World -> res A * World.

Definition ret {A} (a : A) : M A := fun w => (Ok a, w).

Definition bind {A B} (m : M A) (k : A -> M B) : M B :=
  fun w =>
    match m w with
    | (Ok a, w') => k a w'
    | (Raise e, w') => (Raise e, w')
    end.

Definition raise {A} (e : exn) : M A := fun w => (Raise e, w).

(** [try: m except HTTPError as ex: h ex]. *)
Definition try_except_HTTPError {A} (m : M A) (h : N -> M A) : M A :=
  fun w =>
    match m w with
    | (Raise (HTTPError status), w') => h status w'
    | r => r
    end.

Definition lift {A} (e : exn) (o : option A) : M A :=
  match o with
  | Some a => ret a
  | None => raise e
  end.

Declare Scope script_scope.
Delimit Scope script_scope with script.
Notation "'let*' x ':=' m 'in' k" := (bind m (fun x => k))
  (at level 10, x name, m at level 100, k at level 200) : script_scope.
Notation "m '>>' k" := (bind m (fun _ => k))
  (at level 90, right associativity) : script_scope.
Local Open Scope script_scope.

Definition when (b : bool) (m : M unit) : M unit := if b then m else ret tt.

Definition print (text : string) : M unit := fun w => (Ok tt, log (EvPrint text) w).

Definition exit {A} (code : Z) : M A := raise (SystemExit code).

(** ** The commands the script spawns *)

Module git.

Definition mem (x : string) (l : list string) : bool := existsb (String.eqb x) l.

(** The commits of [store] reachable from the ids in [wanted]. *)
Fixpoint reachable (wanted : list string) (store : list Commit) : list Commit :=
  match store with
  | [] => []
  | c :: store' =>
      if mem (c_id c) wanted
      then c :: reachable (c_parents c ++ wanted) store'
      else reachable wanted store'
  end.

Definition head_commit (g : Git) : option string :=
  match g_head g with
  | Detached c => Some c
  | OnBranch b => g_heads g !! b
  end.

(** A revision of the form [origin/<branch>], the only form the script
    uses, names a remote-tracking ref. *)
Definition resolve (g : Git) (rev : string) : option string :=
  if String.prefix "origin/" rev then g_tracking g !! Py.drop 7 rev else None.

(** A pathspec without wildcards selects the path itself and what lies
    below it. *)
Definition pathspec_matches (spec p : string) : bool :=
  String.eqb spec p || String.prefix (spec +:+ "/") p.

Definition touches (specs : list string) (c : Commit) : bool :=
  existsb (fun spec => existsb (pathspec_matches spec) (c_paths c)) specs.

Definition is_merge (c : Commit) : bool := (1 <? List.length (c_parents c))%nat.

(** [--graph --abbrev-commit --pretty=oneline]: one line per commit. *)
Definition oneline (c : Commit) : string :=
  "* " +:+ Py.take 7 (c_id c) +:+ " " +:+ c_subject c +:+ nl.

(** [git log --no-merges -- <path>...]: what follows [--] are paths,
    and the history listed is that of [HEAD]. *)
Definition log_paths (g : Git) (specs : list string) : option string :=
  match head_commit g with
  | Some h =>
      Some (String.concat EmptyString
              (map oneline
                 (List.filter (fun c => negb (is_merge c) && touches specs c)
                    (reachable [h] (g_commits g)))))
  | None => None
  end.

(** The two sides of [a...b]. *)
Definition split_range (range : string) : option (string * string) :=
  match String.index 0 "..." range with
  | Some i => Some (Py.take i range, Py.drop (i + 3) range)
  | None => None
  end.

(** [git log --pretty=format:"%s" a...b]: the subjects, between the
    quotes of the format, of the commits reachable from exactly one of
    the two revisions. *)
Definition log_subjects (g : Git) (range : string) : option string :=
  match split_range range with
  | Some (a, b) =>
      match resolve g a, resolve g b with
      | Some ca, Some cb =>
          let ra := map c_id (reachable [ca] (g_commits g)) in
          let rb := map c_id (reachable [cb] (g_commits g)) in
          Some (String.concat nl
                  (map (fun c => dq +:+ c_subject c +:+ dq)
                     (List.filter (fun c => xorb (mem (c_id c) ra) (mem (c_id c) rb))
                        (g_commits g))))
      | _, _ => None
      end
  | None => None
  end.

Definition set_head (h : Head) (g : Git) : Git :=
  mkGit (g_diff g) (g_commits g) h (g_heads g) (g_tracking g) (g_url g).
Definition set_heads (m : gmap string string) (g : Git) : Git :=
  mkGit (g_diff g) (g_commits g) (g_head g) m (g_tracking g) (g_url g).
Definition set_tracking (m : gmap string string) (g : Git) : Git :=
  mkGit (g_diff g) (g_commits g) (g_head g) (g_heads g) m (g_url g).
Definition set_url (u : string) (g : Git) : Git :=
  mkGit (g_diff g) (g_commits g) (g_head g) (g_heads g) (g_tracking g) u.

End git.

Definition set_branches (m : gmap string string) (h : Hub) : Hub :=
  mkHub m (h_releases h) (h_drafts h) (h_listing h) (h_accepts_push h) (h_post_status h).
Definition set_drafts (d : list ReleaseBody) (h : Hub) : Hub :=
  mkHub (h_branches h) (h_releases h) d (h_listing h) (h_accepts_push h) (h_post_status h).

(** The command lines of the script. *)
Inductive Cmd :=
| GitDiff
| GitLogPaths (specs : list string)
| GitLogSubjects (range : string)
| GitRevParse (rev : string)
| GitRemoteSetUrl (url : string)
| GitCheckoutDetached (rev : string)
| GitCheckoutB (branch : string)
| GitPushForce (branch : string).

(** [args] without the leading [pre], when it starts with it. *)
Fixpoint after (pre args : list string) : option (list string) :=
  match pre, args with
  | [], _ => Some args
  | p :: pre', a :: args' => if String.eqb p a then after pre' args' else None
  | _ :: _, [] => None
  end.

Definition subject_format : string := "--pretty=format:" +:+ dq +:+ "%s" +:+ dq.

Definition decode (args : list string) : option Cmd :=
  match after ["git"; "--no-pager"; "diff"; "--ignore-submodules=untracked"] args with
  | Some [] => Some GitDiff
  | _ =>
  match after ["git"; "--no-pager"; "log"; "--graph"; "--abbrev-commit";
               "--pretty=oneline"; "--no-merges"; "--"] args with
  | Some specs => Some (GitLogPaths specs)
  | _ =>
  match after ["git"; "log"; subject_format] args with
  | Some [range] => Some (GitLogSubjects range)
  | _ =>
  match after ["git"; "rev-parse"] args with
  | Some [rev] => Some (GitRevParse rev)
  | _ =>
  match after ["git"; "remote"; "set-url"; "origin"] args with
  | Some [url] => Some (GitRemoteSetUrl url)
  | _ =>
  match after ["git"; "-c"; "advice.detachedHead=false"; "checkout"] args with
  | Some [rev] => Some (GitCheckoutDetached rev)
  | _ =>
  match after ["git"; "checkout"; "-B"] args with
  | Some [branch] => Some (GitCheckoutB branch)
  | _ =>
  match after ["git"; "push"; "--force"; "origin"] args with
  | Some [branch] => Some (GitPushForce branch)
  | _ => None
  end end end end end end end end.

(** What a command prints on its standard output and how it changes the
    world; [None] is a non-zero exit status.  What the commands print on
    their standard error is only echoed by the script and is left empty. *)
Definition run (c : Cmd) (w : World) : option (string * World) :=
  let g := w_git w in
  match c with
  | GitDiff => Some (g_diff g, w)
  | GitLogPaths specs =>
      match git.log_paths g specs with
      | Some out => Some (out, w)
      | None => None
      end
  | GitLogSubjects range =>
      match git.log_subjects g range with
      | Some out => Some (out, w)
      | None => None
      end
  | GitRevParse rev =>
      match git.resolve g rev with
      | Some c => Some (c +:+ nl, w)
      | None => None
      end
  | GitRemoteSetUrl url => Some (EmptyString, set_git (git.set_url url g) w)
  | GitCheckoutDetached rev =>
      match git.resolve g rev with
      | Some c => Some (EmptyString, set_git (git.set_head (Detached c) g) w)
      | None => None
      end
  | GitCheckoutB branch =>
      match git.head_commit g with
      | Some c =>
          Some (EmptyString, set_git (git.set_head (OnBranch branch)
                               (git.set_heads (<[branch := c]> (g_heads g)) g)) w)
      | None => None
      end
  | GitPushForce branch =>
      match g_heads g !! branch with
      | Some c =>
          if h_accepts_push (w_hub w) then
            Some (EmptyString, set_hub (set_branches (<[branch := c]> (h_branches (w_hub w))) (w_hub w))
                        (set_git (git.set_tracking (<[branch := c]> (g_tracking g)) g) w))
          else None
      | None => None
      end
  end.

(** [subprocess.run(args, check=True, stdout=PIPE, stderr=PIPE)]. *)
Definition subprocess_run (args : list string) : M (string * string) :=
  fun w =>
    let w := log (EvRun args) w in
    match decode args with
    | Some c =>
        match run c w with
        | Some (out, w') => (Ok (out, EmptyString), w')
        | None => (Raise (CalledProcessError args), w)
        end
    | None => (Raise (CalledProcessError args), w)
    end.

(** ** Files, environment and HTTP *)

Definition chdir (d : string) : M unit :=
  fun w =>
    if bool_decide (d ∈ w_dirs w) then (Ok tt, set_cwd d w)
    else (Raise (OSError d), w).

Definition read_file (file : string) : M string :=
  fun w =>
    match w_files w !! (w_cwd w, file) with
    | Some text => (Ok text, w)
    | None => (Raise (OSError file), w)
    end.

Definition write_file (file content : string) : M unit :=
  fun w =>
    if bool_decide ((w_cwd w, file) ∈ w_locked w) then (Raise (OSError file), w)
    else (Ok tt, log (EvWrite file content)
                   (set_files (<[(w_cwd w, file) := content]> (w_files w)) w)).

Definition json_load (file : string) : M Config :=
  let* text := read_file file in
  fun w =>
    match w_json w text with
    | Some c => (Ok c, w)
    | None => (Raise JSONDecodeError, w)
    end.

Definition getenv (name : string) : M (option string) :=
  fun w => (Ok (w_env w !! name), w).

(** [os.path.expanduser] for [~] and [~/...]. *)
Definition expanduser (file : string) : M string :=
  fun w =>
    (Ok (if String.eqb file "~" || String.prefix "~/" file
         then w_home w +:+ Py.drop 1 file else file), w).

Definition get_secret_value (secret_id : string) : M string :=
  fun w =>
    match w_secrets w !! secret_id with
    | Some s => (Ok s, w)
    | None => (Raise ClientError, w)
    end.

(** [requests.get(url).json()] on the listing of the releases: the tags
    of the releases, in the order of the listing. *)
Definition requests_get (url : string) : M (list string) :=
  fun w =>
    let w := log (EvGet url) w in
    if h_listing (w_hub w) then (Ok (h_releases (w_hub w)), w)
    else (Raise ConnectionError, w).

Definition is_2xx (status : N) : bool := ((200 <=? status) && (status <? 300))%N.

(** [requests.post(url, headers={"Authorization": ...}, data=json.dumps(body))]: the status
    of the answer.  An accepted request leaves a draft on the service. *)
Definition requests_post (url authorization : string) (body : ReleaseBody) : M N :=
  fun w =>
    let w := log (EvPost url authorization body) w in
    match h_post_status (w_hub w) with
    | Some status =>
        (Ok status,
         if is_2xx status
         then set_hub (set_drafts (h_drafts (w_hub w) ++ [body]) (w_hub w)) w
         else w)
    | None => (Raise ConnectionError, w)
    end.

(** [resp.raise_for_status()]. *)
Definition raise_for_status (status : N) : M unit :=
  if ((400 <=? status) && (status <? 600))%N then raise (HTTPError status) else ret tt.

(** ** The command line *)

(** What [argparse] finds on the command line: the positional argument
    and, for each option, the value given with it, if it is given. *)
Record argv := mkArgv {
  a_stage : option string;
  a_release : option string;
  a_force : bool;
  a_release_notes : option string;
  a_dry_run : bool;
  a_path : option string
}.

(** The namespace [parser.parse_args()] returns. *)
Record cmd_args := mkArgs {
  stage : string;
  release : string;
  force : bool;
  release_notes : option string;
  dry_run : bool;
  path : string
}.

Definition choices : list string := ["major"; "minor"; "patch"; "prerelease"].

(** [parser.parse_args()]: [argparse] leaves with status 2 when the
    positional argument is missing or the value of [--release] is not
    one of the choices. *)
Definition parse_args (a : argv) : res cmd_args :=
  match a_stage a with
  | None => Raise (SystemExit 2)
  | Some st =>
      let rest r :=
        mkArgs st r (a_force a) (a_release_notes a) (a_dry_run a) (default EmptyString (a_path a)) in
      match a_release a with
      | None => Ok (rest "prerelease")
      | Some r => if git.mem r choices then Ok (rest r) else Raise (SystemExit 2)
      end
  end.

(** ** promote.py

    The functions of the script, in its order.  [check_requirements] is
    defined by the script but never called, and is left out.  The global
    [token], set by the main block and read by [commit], is passed as an
    argument. *)

Section promote.

Variable cmd_args : cmd_args.

(** Lines 46-52: change directory, read the configuration. *)
Definition startup : M Config :=
  when (Py.truthy (path cmd_args)) (chdir (path cmd_args)) >>
  json_load "./release_config.json".

Definition release_type_warning : string :=
  "Warning: cannot release " +:+ dq +:+ "prod" +:+ dq +:+ " with a release type."
  +:+ nl +:+ "Specify no release type to produce a finalized version.".

(** Lines 54-59. *)
Definition check_release_type : M unit :=
  if String.eqb (stage cmd_args) "prod" && Py.truthy (release cmd_args) then
    print release_type_warning >>
    exit 1
  else ret tt.

Definition _subprocess (args : list string) : M string :=
  print ("RUN: " +:+ Py.join " " args) >>
  let* response := subprocess_run args in
  when (Py.truthy (fst response)) (print ("RUN STDOUT:" +:+ nl +:+ fst response)) >>
  when (Py.truthy (snd response)) (print ("RUN STDERR:" +:+ nl +:+ snd response)) >>
  print nl >>
  ret (fst response).

Definition check_diff (src dst : string) : M unit :=
  let* result :=
    _subprocess ["git"; "--no-pager"; "log"; "--graph"; "--abbrev-commit";
                 "--pretty=oneline"; "--no-merges"; "--"; src; "^" +:+ dst] in
  if Py.truthy result then
    print ("Warning: the following commits are present on " +:+ dst +:+ " but not on "
           +:+ src +:+ ": " +:+ nl +:+ result) >>
    if force cmd_args then
      print ("Warning: they will be overwritten on " +:+ dst +:+ " and discarded.")
    else
      print ("Warning: run with --force to overwrite and discard these commits from " +:+ dst) >>
      exit 1
  else ret tt.

Definition check_working_tree : M unit :=
  let* result := _subprocess ["git"; "--no-pager"; "diff"; "--ignore-submodules=untracked"] in
  if Py.truthy result then
    print result >>
    print ("Warning: Working tree contains changes to tracked files. Please commit or discard "
           +:+ "your changes and try again.") >>
    exit 1
  else ret tt.

Definition make_release_notes (src dst : string) : M string :=
  let* result :=
    _subprocess ["git"; "log"; subject_format; "origin/" +:+ src +:+ "...origin/" +:+ dst] in
  let commits := Py.join nl (map (fun i => "- " +:+ Py.slice_1_m1 i) (Py.split lf result)) in
  match release_notes cmd_args with
  | Some file => when (Py.truthy file) (write_file file commits)
  | None => ret tt
  end >>
  ret commits.

Definition commit (token repo src dst : string) : M unit :=
  (let* out := _subprocess ["git"; "remote"; "set-url"; "origin";
                            "https://" +:+ token +:+ "@github.com/" +:+ repo +:+ ".git"] in
   print out) >>
  (let* out := _subprocess ["git"; "-c"; "advice.detachedHead=false"; "checkout";
                            "origin/" +:+ src] in
   print out) >>
  (let* out := _subprocess ["git"; "checkout"; "-B"; dst] in print out) >>
  (let* out := _subprocess ["git"; "push"; "--force"; "origin"; dst] in print out).

(** The comprehension [[parse(tag) for tag in releases if keep(parse(tag))]]:
    it raises at the first tag that does not parse. *)
Fixpoint versions_where (keep : semver.VersionInfo -> bool) (releases : list string)
    : option (list semver.VersionInfo) :=
  match releases with
  | [] => Some []
  | tag :: rest =>
      match semver.parse_version_info tag with
      | Some v =>
          match versions_where keep rest with
          | Some vs => Some (if keep v then v :: vs else vs)
          | None => None
          end
      | None => None
      end
  end.

Definition is_rc (v : semver.VersionInfo) : bool :=
  match semver.prerelease v with
  | Some p => Py.truthy p && Py.startswith p "rc"
  | None => false
  end.

Definition is_final (v : semver.VersionInfo) : bool :=
  negb (Py.truthy_opt (semver.prerelease v)).

Definition nonempty {A} (l : list A) : bool :=
  match l with [] => false | _ :: _ => true end.

Definition get_current_version (repo : string) (_stage : option string) : M string :=
  let _stage := if Py.truthy_opt _stage then default EmptyString _stage else stage cmd_args in
  let version_url := "https://api.github.com/repos/" +:+ repo +:+ "/releases" in
  let* releases := requests_get version_url in
  let* versions :=
    if nonempty releases && String.eqb _stage "staging" then
      lift ValueError (versions_where is_rc releases)
    else if nonempty releases && String.eqb _stage "prod" then
      lift ValueError (versions_where is_final releases)
    else ret [semver.mkVersion 0 0 0 None None] in
  let* greatest := lift ValueError (semver.max versions) in
  ret (semver.str greatest).

(** [getattr(semver, f"bump_{release}")(version)]. *)
Definition bump (kind version : string) : M string :=
  if String.eqb kind "major" then lift ValueError (semver.bump_major version)
  else if String.eqb kind "minor" then lift ValueError (semver.bump_minor version)
  else if String.eqb kind "patch" then lift ValueError (semver.bump_patch version)
  else if String.eqb kind "prerelease" then lift ValueError (semver.bump_prerelease version "rc")
  else if String.eqb kind "build" then lift ValueError (semver.bump_build version "build")
  else raise (AttributeError ("bump_" +:+ kind)).

(** Lines 189-194: the requested bump, then the [rc] label when the
    bumped version has no prerelease label. *)
Definition bump_and_label (cur_version : string) : M string :=
  let* _new_version := bump (release cmd_args) cur_version in
  let* info := lift ValueError (semver.parse_version_info _new_version) in
  if Py.truthy_opt (semver.prerelease info) then ret _new_version
  else lift ValueError (semver.bump_prerelease _new_version "rc").

Definition update_version (repo src dst : string) : M string :=
  let* cur_version := get_current_version repo (Some (stage cmd_args)) in
  let* _new_version :=
    if String.eqb src "prod" then
      let* prv_version := get_current_version repo (Some dst) in
      lift ValueError (semver.finalize_version prv_version)
    else bump_and_label cur_version in
  if String.eqb cur_version _new_version then
    print "Nothing to promote" >>
    exit 0
  else
    print ("Upgrading: " +:+ cur_version +:+ " -> " +:+ _new_version) >>
    ret _new_version.

(** Lines 205-216. *)
Definition resolve_token : M string :=
  let* token := getenv "GITHUB_TOKEN" in
  if Py.truthy_opt token then ret (default EmptyString token)
  else
    let* from_env := getenv "GITHUB_TOKEN_PATH" in
    let token_path := semver.or_else from_env "promote-token.txt" in
    if Py.truthy token_path && negb (String.eqb token_path "None") then
      let* file := expanduser token_path in
      let* text := read_file file in
      ret (Py.strip text)
    else
      let* secret_id := let* o := getenv "GITHUB_TOKEN_SECRET_NAME" in
                        lift (KeyError "GITHUB_TOKEN_SECRET_NAME") o in
      get_secret_value secret_id.

(** What lines 205-227 leave in the variables of the script. *)
Record Prepared := mkPrepared {
  token : string;
  repo_name : string;
  src_branch : string;
  dst_branch : string;
  mark_prerelease : bool;
  notes : string
}.

(** Lines 205-227: token, configuration of the stage, the two checks
    and the release notes. *)
Definition prepare (config : Config) : M Prepared :=
  let* token := resolve_token in
  let* stage_config := lift (KeyError (stage cmd_args)) (release_map config !! stage cmd_args) in
  let repository := Py.replace (repository config) "https://github.com/" EmptyString in
  let source := source stage_config in
  let destination := destination stage_config in
  let prerelease := prerelease stage_config in
  let dry_run := if dry_run cmd_args then "(dry run)" else EmptyString in
  print ("Releasing " +:+ source +:+ " to " +:+ destination +:+ " " +:+ dry_run) >>
  check_working_tree >>
  check_diff source destination >>
  let* release_notes := make_release_notes source destination in
  ret (mkPrepared token repository source destination prerelease release_notes).

(** Lines 228-252: the version, then promotion and publication unless
    this is a dry run. *)
Definition promote_and_publish (p : Prepared) : M unit :=
  let* new_version := update_version (repo_name p) (src_branch p) (dst_branch p) in
  if negb (dry_run cmd_args) then
    let* old_branch := _subprocess ["git"; "rev-parse"; "origin/" +:+ dst_branch p] in
    commit (token p) (repo_name p) (src_branch p) (dst_branch p) >>
    let body := mkBody new_version (dst_branch p +:+ " " +:+ new_version)
                  (mark_prerelease p) true (dst_branch p) (notes p) in
    let* resp := requests_post ("https://api.github.com/repos/" +:+ repo_name p +:+ "/releases")
                   ("token " +:+ token p) body in
    try_except_HTTPError (raise_for_status resp)
      (fun status =>
         print ("ERROR: Failed to create release!  Changes were:" +:+ nl +:+ notes p) >>
         print "Rolling back changes:" >>
         commit (token p) (repo_name p) old_branch (dst_branch p) >>
         raise (HTTPError status))
  else ret tt.

(** Everything before the version is computed. *)
Definition preparation : M Prepared :=
  let* config := startup in
  check_release_type >>
  prepare config.

(** The script after [parse_args]. *)
Definition script : M unit :=
  let* p := preparation in
  promote_and_publish p.

End promote.

(** The whole run, from the command line. *)
Definition promote (a : argv) : M unit :=
  match parse_args a with
  | Ok args => script args
  | Raise e => raise e
  end.

(** ** What a run may change *)

(** The events that change the remote repository or the releases: a
    [git push] and a POST. *)
Definition is_mutation (e : event) : bool :=
  match e with
  | EvRun args =>
      match decode args with
      | Some (GitPushForce _) => true
      | _ => false
      end
  | EvPost _ _ _ => true
  | _ => false
  end.

Definition mutations (l : list event) : list event := List.filter is_mutation l.

(** The hosting service and the local repository are as they were, and
    no push or POST was made in between. *)
Definition same_repo (w w' : World) : Prop :=
  w_hub w' = w_hub w /\ w_git w' = w_git w /\ mutations (w_log w') = mutations (w_log w).

(** The files and the working directory are as they were. *)
Definition same_files (w w' : World) : Prop :=
  w_files w' = w_files w /\ w_cwd w' = w_cwd w.

(** ** A program logic for the script

    [hoare P m Q E]: from a world satisfying [P], [m] ends either with a
    value and a world satisfying [Q] or with an exception and a world
    satisfying [E]. *)

Definition hoare {A} (P : World -> Prop) (m : M A)
    (Q : A -> World -> Prop) (E : exn -> World -> Prop) : Prop :=
  forall w, P w ->
    match m w with
    | (Ok a, w') => Q a w'
    | (Raise e, w') => E e w'
    end.

(** ** Vocabulary of the properties *)

(** The release notes made of the output of [git log]. *)
Definition render_notes (result : string) : string :=
  Py.join nl (map (fun i => "- " +:+ Py.slice_1_m1 i) (Py.split lf result)).

Definition notes_range (src dst : string) : string :=
  "origin/" +:+ src +:+ "...origin/" +:+ dst.

(** The invariant of a run on a dirty working tree, from the world [w0]
    on: the tree stays dirty and nothing has been promoted. *)
Definition dirty_inv (w0 w : World) : Prop :=
  g_diff (w_git w) <> EmptyString /\ same_repo w0 w.

(** The run ends with status 1 and has promoted nothing. *)
Definition blocked (w0 : World) (e : exn) (w : World) : Prop :=
  exit_code (@Raise unit e) = 1%Z /\ same_repo w0 w.

(** After the preparation has left the world [w1]: the repositories are
    as in [w0], at the start of the run, and the files as in [w1]. *)
Definition dry_inv (w0 w1 w : World) : Prop := same_repo w0 w /\ same_files w1 w.

(** The arguments of the [git checkout] the rollback runs: the output of
    [git rev-parse], line feed included, behind [origin/]. *)
Definition rollback_checkout (old_commit : string) : list string :=
  ["git"; "-c"; "advice.detachedHead=false"; "checkout"; "origin/" +:+ old_commit +:+ nl].

Definition releases_url (repo : string) : string :=
  "https://api.github.com/repos/" +:+ repo +:+ "/releases".

(** The stage [get_current_version] works with. *)
Definition effective_stage (args : cmd_args) (_stage : option string) : string :=
  if Py.truthy_opt _stage then default EmptyString _stage else stage args.

(** [c] does not occur in [s]. *)
Definition absent (c : ascii) (s : string) : bool :=
  Py.all_chars (fun x => negb (Ascii.eqb x c)) s.

Definition core (ma mi pa : N) : string :=
  Py.str_of_int ma +:+ String "." (Py.str_of_int mi +:+ String "." (Py.str_of_int pa)).

(** What [parse_version_info] checks of a prerelease label. *)
Definition label_ok (pre : option string) : bool :=
  match pre with
  | Some s => absent lf s && absent "+" s && forallb semver.is_prerelease_id (Py.split "." s)
  | None => true
  end.

(** The label [rc.n]. *)
Definition rc (n : N) : string := "rc." +:+ Py.str_of_int n.

(** ** A repository to run the script on

    Three commits: [integration] is one commit ahead of the root, and
    [staging] holds a hotfix that [integration] does not have.  One
    release candidate has been published. *)

Module Scenario.

Definition root := mkCommit "a1a1a1a1a1" [] "Initial import" ["README.md"].
Definition hotfix := mkCommit "c3c3c3c3c3" ["a1a1a1a1a1"] "Hotfix on staging" ["fix.py"].
Definition feature := mkCommit "b2b2b2b2b2" ["a1a1a1a1a1"] "Add feature" ["app.py"].

Definition branches : gmap string string :=
  <["integration" := "b2b2b2b2b2"]> (<["staging" := "c3c3c3c3c3"]> ∅).

Definition repo : Git :=
  mkGit EmptyString [feature; hotfix; root] (OnBranch "master")
    (<["master" := "b2b2b2b2b2"]> ∅) branches "https://github.com/acme/app.git".

Definition hub (tags : list string) (status : N) : Hub :=
  mkHub branches tags [] true true (Some status).

Definition config : Config :=
  mkConfig "https://github.com/acme/app"
    (<["staging" := mkStage "integration" "staging" true]>
       (<["prod" := mkStage "staging" "prod" false]> ∅)).

Definition decode_config (text : string) : option Config :=
  if String.eqb text "{...}" then Some config else None.

Definition world (g : Git) (h : Hub) : World :=
  mkWorld (<["GITHUB_TOKEN" := "t0k3n"]> ∅) "/home/dev" "/work" ∅
    (<[("/work", "./release_config.json") := "{...}"]> ∅) ∅ decode_config ∅ g h [].

(** The service accepts everything. *)
Definition fine : World := world repo (hub ["0.1.0-rc.0"] 201).

(** The same, with the tags of the published releases given. *)
Definition tagged (tags : list string) : World := world repo (hub tags 201).

(** [staging] is still at the root, with nothing of its own, and the
    service refuses to create the release. *)
Definition behind : gmap string string :=
  <["integration" := "b2b2b2b2b2"]> (<["staging" := "a1a1a1a1a1"]> ∅).

Definition refusing : World :=
  world (mkGit EmptyString [feature; root] (OnBranch "master")
           (<["master" := "b2b2b2b2b2"]> ∅) behind "https://github.com/acme/app.git")
        (mkHub behind ["0.1.0-rc.0"] [] true true (Some 500%N)).

(** The working tree has a modified file. *)
Definition dirty : World :=
  world (mkGit "diff --git a/app.py b/app.py" [feature; hotfix; root] (OnBranch "master")
           (<["master" := "b2b2b2b2b2"]> ∅) branches "https://github.com/acme/app.git")
    (hub ["0.1.0-rc.0"] 201).

Definition staging : argv := mkArgv (Some "staging") None false None false None.
Definition staging_forced : argv := mkArgv (Some "staging") None true None false None.
Definition staging_dry : argv :=
  mkArgv (Some "staging") None false (Some "notes.txt") true None.
Definition prod : argv := mkArgv (Some "prod") None false None false None.

End Scenario.

(** The namespaces of three command lines. *)
Definition staging_args : cmd_args :=
  mkArgs "staging" "prerelease" false None false EmptyString.

Definition prod_args : cmd_args :=
  mkArgs "prod" "prerelease" false None false EmptyString.

Definition with_release (kind : string) : cmd_args :=
  mkArgs "staging" kind false None false EmptyString.

(** ** Vocabulary of the further properties *)

(** The remote URL [commit] sets. *)
Definition token_url (token repo : string) : string :=
  "https://" +:+ token +:+ "@github.com/" +:+ repo +:+ ".git".

(** The release [promote_and_publish] asks the service to create. *)
Definition release_body (p : Prepared) (new_version : string) : ReleaseBody :=
  mkBody new_version (dst_branch p +:+ " " +:+ new_version) (mark_prerelease p) true
    (dst_branch p) (notes p).

(** The request that creates it. *)
Definition release_post (p : Prepared) (new_version : string) : event :=
  EvPost (releases_url (repo_name p)) ("token " +:+ token p) (release_body p new_version).

(** The repository of [Scenario.fine] with a service that answers the
    POST as given ([None]: it cannot be reached) and accepts pushes or
    not. *)
Definition answering (accepts_push : bool) (status : option N) : World :=
  Scenario.world Scenario.repo
    (mkHub Scenario.branches ["0.1.0-rc.0"] [] true accepts_push status).

(** What lines 205-227 leave for [promote.py staging] on that
    repository. *)
Definition prepared_staging : Prepared :=
  mkPrepared "t0k3n" "acme/app" "integration" "staging" true
    ("- Add feature" +:+ nl +:+ "- Hotfix on staging").


(** * Properties *)

(** ** The semver functions on examples *)

Example parse_rc : semver.parse_version_info "1.2.0-rc.3" =
  Some (semver.mkVersion 1 2 0 (Some "rc.3") None).
Proof. reflexivity. Qed.

Example parse_bad : semver.parse_version_info "v1.2" = None.
Proof. reflexivity. Qed.

Example bump_pre_example : semver.bump_prerelease "1.2.0-rc.0" "rc" = Some "1.2.0-rc.1".
Proof. reflexivity. Qed.

Example bump_pre_fresh : semver.bump_prerelease "1.2.1" "rc" = Some "1.2.1-rc.1".
Proof. reflexivity. Qed.

Example incr_zeros : semver._increment_string "rc.009" = "rc.010".
Proof. reflexivity. Qed.

Example incr_carry : semver._increment_string "rc.99x" = "rc.100x".
Proof. reflexivity. Qed.

(** A final version is greater than its release candidates, and the
    numbers of the labels are compared as numbers. *)
Example final_above_candidate :
  semver.gt (semver.mkVersion 1 0 0 None None) (semver.mkVersion 1 0 0 (Some "rc.1") None) = true.
Proof. reflexivity. Qed.

Example candidates_by_number :
  semver.gt (semver.mkVersion 1 0 0 (Some "rc.10") None)
            (semver.mkVersion 1 0 0 (Some "rc.9") None) = true.
Proof. reflexivity. Qed.

Lemma hoare_ret {A} (P : World -> Prop) (Q : A -> World -> Prop) E a :
  (forall w, P w -> Q a w) -> hoare P (ret a) Q E.
Proof. intros H w Hw. simpl. auto. Qed.

Lemma hoare_raise {A} (P : World -> Prop) (Q : A -> World -> Prop) (E : exn -> World -> Prop) e :
  (forall w, P w -> E e w) -> hoare P (raise e) Q E.
Proof. intros H w Hw. simpl. auto. Qed.

Lemma hoare_bind {A B} P (m : M A) (k : A -> M B) Q R E :
  hoare P m Q E -> (forall a, hoare (Q a) (k a) R E) -> hoare P (bind m k) R E.
Proof.
  intros Hm Hk w Hw. unfold bind. specialize (Hm w Hw).
  destruct (m w) as [[a|e] w']; [apply (Hk a w' Hm) | exact Hm].
Qed.

Lemma hoare_weaken {A} (P P' : World -> Prop) (m : M A) (Q Q' : A -> World -> Prop)
    (E E' : exn -> World -> Prop) :
  hoare P m Q E ->
  (forall w, P' w -> P w) ->
  (forall a w, Q a w -> Q' a w) ->
  (forall e w, E e w -> E' e w) ->
  hoare P' m Q' E'.
Proof.
  intros H HP HQ HE w Hw. specialize (H w (HP w Hw)).
  destruct (m w) as [[a|e] w']; auto.
Qed.

Lemma hoare_false {A} (m : M A) Q E : hoare (fun _ => False) m Q E.
Proof. intros w []. Qed.

Lemma hoare_lift {A} (P : World -> Prop) (Q : A -> World -> Prop) (E : exn -> World -> Prop)
    e (o : option A) :
  (forall a w, o = Some a -> P w -> Q a w) ->
  (forall w, o = None -> P w -> E e w) ->
  hoare P (lift e o) Q E.
Proof.
  intros HS HN. destruct o as [a|]; simpl.
  - apply hoare_ret. eauto.
  - apply hoare_raise. eauto.
Qed.

(** A triple seen from a run. *)
Lemma hoare_run {A} P (m : M A) Q E w r w' :
  hoare P m Q E -> P w -> m w = (r, w') ->
  match r with Ok a => Q a w' | Raise e => E e w' end.
Proof. intros H Hw Hr. specialize (H w Hw). rewrite Hr in H. exact H. Qed.

Lemma same_repo_refl w : same_repo w w.
Proof. repeat split. Qed.

Lemma same_repo_trans w1 w2 w3 : same_repo w1 w2 -> same_repo w2 w3 -> same_repo w1 w3.
Proof. unfold same_repo. intros (?&?&?) (?&?&?). repeat split; congruence. Qed.

Lemma mutations_log e w :
  is_mutation e = false -> mutations (w_log (log e w)) = mutations (w_log w).
Proof.
  intros He. simpl. unfold mutations. rewrite List.filter_app. simpl. rewrite He.
  apply app_nil_r.
Qed.

Lemma same_repo_log w0 e w : is_mutation e = false -> same_repo w0 w -> same_repo w0 (log e w).
Proof.
  intros He (Hh&Hg&Hm). repeat split; simpl; auto.
  rewrite <- Hm. apply (mutations_log e w He).
Qed.

(** The command lines of the script, decoded. *)
Lemma decode_diff :
  decode ["git"; "--no-pager"; "diff"; "--ignore-submodules=untracked"] = Some GitDiff.
Proof. reflexivity. Qed.

Lemma decode_log_paths src dst :
  decode ["git"; "--no-pager"; "log"; "--graph"; "--abbrev-commit"; "--pretty=oneline";
          "--no-merges"; "--"; src; "^" +:+ dst]
  = Some (GitLogPaths [src; "^" +:+ dst]).
Proof. reflexivity. Qed.

Lemma decode_log_subjects range :
  decode ["git"; "log"; subject_format; range] = Some (GitLogSubjects range).
Proof. reflexivity. Qed.

Lemma decode_rev_parse rev : decode ["git"; "rev-parse"; rev] = Some (GitRevParse rev).
Proof. reflexivity. Qed.

Lemma decode_set_url url :
  decode ["git"; "remote"; "set-url"; "origin"; url] = Some (GitRemoteSetUrl url).
Proof. reflexivity. Qed.

Lemma decode_checkout rev :
  decode ["git"; "-c"; "advice.detachedHead=false"; "checkout"; rev]
  = Some (GitCheckoutDetached rev).
Proof. reflexivity. Qed.

Lemma decode_checkout_B branch :
  decode ["git"; "checkout"; "-B"; branch] = Some (GitCheckoutB branch).
Proof. reflexivity. Qed.

Lemma decode_push branch :
  decode ["git"; "push"; "--force"; "origin"; branch] = Some (GitPushForce branch).
Proof. reflexivity. Qed.

(** *** Steps that keep an invariant

    [I] is a property of the world that survives the logging of an event
    that is no push and no POST; [E] holds of every uncaught exception
    that makes the interpreter exit with status 1. *)

Section frame.

Variable I : World -> Prop.
Variable E : exn -> World -> Prop.
Hypothesis I_log : forall e w, is_mutation e = false -> I w -> I (log e w).
Hypothesis E_uncaught : forall e w, I w -> exit_code (@Raise unit e) = 1%Z -> E e w.

Variable args : cmd_args.

Lemma frame_print text : hoare I (print text) (fun _ => I) E.
Proof. intros w Hw. simpl. apply I_log; auto. Qed.

Lemma frame_when b m :
  hoare I m (fun _ => I) E -> hoare I (when b m) (fun _ => I) E.
Proof. intros H. destruct b; simpl; [exact H | apply hoare_ret; auto]. Qed.

Lemma frame_exit1 {A} (Q : A -> World -> Prop) : hoare I (exit 1) Q E.
Proof. apply hoare_raise. intros w Hw. apply E_uncaught; auto. Qed.

(** A command that only reads the local repository. *)
Lemma frame_reading cmdline c (out_of : Git -> option string) :
  decode cmdline = Some c ->
  is_mutation (EvRun cmdline) = false ->
  (forall w, run c w = match out_of (w_git w) with
                       | Some out => Some (out, w)
                       | None => None
                       end) ->
  hoare I (_subprocess cmdline) (fun out w => I w /\ out_of (w_git w) = Some out) E.
Proof.
  intros Hdec Hpush Hrun w Hw.
  unfold _subprocess, bind, print, subprocess_run. rewrite Hdec, Hrun. simpl.
  assert (Hw' : I (log (EvRun cmdline) (log (EvPrint ("RUN: " +:+ Py.join " " cmdline)) w))).
  { apply I_log; [exact Hpush|]. apply I_log; auto. }
  destruct (out_of (w_git w)) as [out|] eqn:Hout; simpl.
  - destruct (Py.truthy out); simpl; (split; [|exact Hout]);
      repeat (apply I_log; [reflexivity|]); exact Hw'.
  - apply E_uncaught; [exact Hw'|reflexivity].
Qed.


Lemma frame_get_current_version repo st :
  hoare I (get_current_version args repo st) (fun _ => I) E.
Proof.
  intros w Hw. unfold get_current_version, bind, requests_get, lift, ret, raise.
  assert (Hg : I (log (EvGet ("https://api.github.com/repos/" +:+ repo +:+ "/releases")) w))
    by (apply I_log; auto).
  simpl.
  repeat (case_match; simpl in *; simplify_eq; auto using E_uncaught).
Qed.

Lemma frame_bump kind version : hoare I (bump kind version) (fun _ => I) E.
Proof.
  intros w Hw. unfold bump, lift, ret, raise.
  repeat (case_match; simpl in *; simplify_eq; auto using E_uncaught).
Qed.

Lemma frame_bump_and_label cur : hoare I (bump_and_label args cur) (fun _ => I) E.
Proof.
  unfold bump_and_label.
  eapply hoare_bind; [apply frame_bump|]. intros b.
  eapply hoare_bind.
  { apply hoare_lift with (Q := fun _ => I); [auto|]. intros w _ Hw. apply E_uncaught; auto. }
  intros info. destruct (Py.truthy_opt (semver.prerelease info)).
  - apply hoare_ret. auto.
  - apply hoare_lift; [auto|]. intros w _ Hw. apply E_uncaught; auto.
Qed.

(** [exit(0)] ends the run of [update_version] when there is nothing
    to promote. *)
Hypothesis E_exit0 : forall w, I w -> E (SystemExit 0) w.

Lemma frame_update_version repo src dst :
  hoare I (update_version args repo src dst) (fun _ => I) E.
Proof.
  unfold update_version.
  eapply hoare_bind; [apply frame_get_current_version|]. intros cur.
  eapply hoare_bind with (Q := fun _ => I).
  { destruct (String.eqb src "prod").
    - eapply hoare_bind; [apply frame_get_current_version|]. intros prv.
      apply hoare_lift; [auto|]. intros w _ Hw. apply E_uncaught; auto.
    - apply frame_bump_and_label. }
  intros new. destruct (String.eqb cur new).
  - eapply hoare_bind; [apply frame_print|]. intros ?.
    apply hoare_raise. auto.
  - eapply hoare_bind; [apply frame_print|]. intros ?.
    apply hoare_ret. auto.
Qed.

Lemma frame_dry_run p :
  dry_run args = true -> hoare I (promote_and_publish args p) (fun _ => I) E.
Proof.
  intros Hdry. unfold promote_and_publish. rewrite Hdry. simpl.
  eapply hoare_bind; [apply frame_update_version|]. intros v.
  apply hoare_ret. auto.
Qed.

Hypothesis I_files : forall f w, I w -> I (set_files f w).
Hypothesis I_cwd : forall d w, I w -> I (set_cwd d w).

Lemma frame_startup : hoare I (startup args) (fun _ => I) E.
Proof.
  intros w Hw. unfold startup, bind, when, chdir, json_load, bind, read_file, ret.
  destruct (Py.truthy (path args)); simpl.
  - destruct (bool_decide (path args ∈ w_dirs w)); simpl.
    + destruct (w_files w !! (path args, "./release_config.json")); simpl.
      * destruct (w_json w s); simpl; auto using E_uncaught.
      * apply E_uncaught; auto.
    + apply E_uncaught; auto.
  - destruct (w_files w !! (w_cwd w, "./release_config.json")); simpl.
    + destruct (w_json w s); simpl; auto using E_uncaught.
    + apply E_uncaught; auto.
Qed.

Lemma frame_check_release_type :
  hoare I (check_release_type args)
    (fun _ w => I w /\ (String.eqb (stage args) "prod" && Py.truthy (release args)) = false) E.
Proof.
  unfold check_release_type.
  destruct (String.eqb (stage args) "prod" && Py.truthy (release args)).
  - eapply hoare_bind; [apply frame_print|]. intros ?. apply frame_exit1.
  - apply hoare_ret. auto.
Qed.

Lemma frame_resolve_token : hoare I (resolve_token) (fun _ => I) E.
Proof.
  intros w Hw.
  unfold resolve_token, bind, getenv, expanduser, read_file, get_secret_value, lift, ret, raise.
  repeat (case_match; simpl in *; simplify_eq; auto using E_uncaught).
Qed.

Lemma frame_check_working_tree :
  hoare I check_working_tree (fun _ w => I w /\ g_diff (w_git w) = EmptyString) E.
Proof.
  unfold check_working_tree.
  eapply hoare_bind.
  { apply (frame_reading _ GitDiff (fun g => Some (g_diff g))); reflexivity. }
  intros result. simpl. destruct result as [|c result]; simpl.
  - apply hoare_ret. intros w [Hw Hd]. split; congruence.
  - eapply hoare_weaken with (P := I) (Q := fun _ _ => False) (E := E);
      [ | tauto | tauto | auto ].
    eapply hoare_bind; [apply frame_print|]. intros ?.
    eapply hoare_bind; [apply frame_print|]. intros ?.
    apply frame_exit1.
Qed.

Lemma frame_check_diff src dst : hoare I (check_diff args src dst) (fun _ => I) E.
Proof.
  unfold check_diff.
  eapply hoare_bind.
  { apply (frame_reading _ (GitLogPaths [src; "^" +:+ dst])
             (fun g => git.log_paths g [src; "^" +:+ dst])); reflexivity. }
  intros result. simpl.
  eapply hoare_weaken with (P := I) (Q := fun _ => I) (E := E); [ | tauto | auto | auto ].
  destruct (Py.truthy result).
  - eapply hoare_bind; [apply frame_print|]. intros ?.
    destruct (force args).
    + apply frame_print.
    + eapply hoare_bind; [apply frame_print|]. intros ?. apply frame_exit1.
  - apply hoare_ret. auto.
Qed.

Lemma frame_make_release_notes src dst :
  hoare I (make_release_notes args src dst)
    (fun commits w =>
       I w /\
       (exists out, git.log_subjects (w_git w) (notes_range src dst) = Some out
                    /\ commits = render_notes out) /\
       (forall file, release_notes args = Some file -> Py.truthy file = true ->
                     w_files w !! (w_cwd w, file) = Some commits)) E.
Proof.
  unfold make_release_notes.
  eapply hoare_bind.
  { apply (frame_reading _ (GitLogSubjects (notes_range src dst))
             (fun g => git.log_subjects g (notes_range src dst))); reflexivity. }
  intros result. fold (render_notes result).
  intros w [Hw Hout]. unfold bind, when, write_file, ret.
  destruct (release_notes args) as [file|]; simpl.
  - destruct (Py.truthy file) eqn:Ht; simpl.
    + destruct (bool_decide ((w_cwd w, file) ∈ w_locked w)); simpl.
      * apply E_uncaught; auto.
      * split; [|split].
        -- apply I_log; [reflexivity|]. apply I_files. exact Hw.
        -- exists result. auto.
        -- intros f Hf _. injection Hf as Hf. subst f. apply lookup_insert_eq.
    + split; [exact Hw|split; [eauto|]]. intros f Hf. injection Hf as Hf. subst f. congruence.
  - split; [exact Hw|split; [eauto|]]. discriminate.
Qed.

Lemma frame_prepare config :
  hoare I (prepare args config)
    (fun p w =>
       I w /\
       (exists out, git.log_subjects (w_git w) (notes_range (src_branch p) (dst_branch p))
                      = Some out /\ notes p = render_notes out) /\
       (forall file, release_notes args = Some file -> Py.truthy file = true ->
                     w_files w !! (w_cwd w, file) = Some (notes p))) E.
Proof.
  unfold prepare.
  eapply hoare_bind; [apply frame_resolve_token|]. intros tok.
  eapply hoare_bind.
  { apply hoare_lift with (Q := fun _ => I); [auto|]. intros w _ Hw. apply E_uncaught; auto. }
  intros stage_config.
  eapply hoare_bind; [apply frame_print|]. intros ?.
  eapply hoare_bind.
  { eapply hoare_weaken; [apply frame_check_working_tree|auto|..]; simpl; [|auto].
    intros ? w [Hw _]. exact Hw. }
  intros ?.
  eapply hoare_bind; [apply frame_check_diff|]. intros ?.
  eapply hoare_bind; [apply frame_make_release_notes|]. intros commits.
  apply hoare_ret. simpl. auto.
Qed.

Lemma frame_preparation :
  hoare I (preparation args)
    (fun p w =>
       I w /\
       (exists out, git.log_subjects (w_git w) (notes_range (src_branch p) (dst_branch p))
                      = Some out /\ notes p = render_notes out) /\
       (forall file, release_notes args = Some file -> Py.truthy file = true ->
                     w_files w !! (w_cwd w, file) = Some (notes p))) E.
Proof.
  unfold preparation.
  eapply hoare_bind; [apply frame_startup|]. intros config.
  eapply hoare_bind.
  { eapply hoare_weaken; [apply frame_check_release_type|auto|..]; simpl; [|auto].
    intros ? w [Hw _]. exact Hw. }
  intros ?. apply frame_prepare.
Qed.

End frame.

(** ** The working tree *)

Section dirty_tree.

Variable args : cmd_args.
Variable w0 : World.

Lemma dirty_log e w : is_mutation e = false -> dirty_inv w0 w -> dirty_inv w0 (log e w).
Proof. intros He [Hd Hs]. split; [exact Hd | apply same_repo_log; auto]. Qed.

Lemma dirty_uncaught e w :
  dirty_inv w0 w -> exit_code (@Raise unit e) = 1%Z -> blocked w0 e w.
Proof. intros [_ Hs] He. split; auto. Qed.

Local Ltac side :=
  first [ exact dirty_log | exact dirty_uncaught | (intros ? ? H; exact H) ].

Lemma dirty_preparation :
  hoare (dirty_inv w0) (preparation args) (fun _ _ => False) (blocked w0).
Proof.
  unfold preparation.
  eapply hoare_bind; [apply frame_startup; side|]. intros config.
  eapply hoare_bind.
  { eapply hoare_weaken; [apply frame_check_release_type; side|auto|..]; simpl; [|auto].
    intros ? w [Hw _]. exact Hw. }
  intros ?. unfold prepare.
  eapply hoare_bind; [apply frame_resolve_token; side|]. intros tok.
  eapply hoare_bind.
  { apply hoare_lift with (Q := fun _ => dirty_inv w0); [auto|].
    intros w _ Hw. apply dirty_uncaught; auto. }
  intros stage_config.
  eapply hoare_bind; [apply frame_print; side|]. intros ?.
  eapply hoare_bind with (Q := fun _ _ => False).
  { eapply hoare_weaken; [apply frame_check_working_tree; side|auto|..]; simpl; [|auto].
    intros ? w [[Hd _] Hc]. contradiction. }
  intros ?. apply hoare_false.
Qed.

Lemma dirty_script : hoare (dirty_inv w0) (script args) (fun _ _ => False) (blocked w0).
Proof.
  unfold script. eapply hoare_bind; [apply dirty_preparation|].
  intros p. apply hoare_false.
Qed.

End dirty_tree.

(** C9. When [git diff] prints something for the working tree, a run
    whose command line parses ends with exit status 1 and has promoted
    nothing: the remote branches and the releases are as they were, the
    local repository too, and neither a push nor a POST was made.  The
    command line is arbitrary, so this holds with and without [--force]. *)
Theorem dirty_working_tree_blocks (a : argv) (args : cmd_args) (w : World) :
  parse_args a = Ok args ->
  g_diff (w_git w) <> EmptyString ->
  exit_code (fst (promote a w)) = 1%Z /\ same_repo w (snd (promote a w)).
Proof.
  intros Hparse Hdirty. unfold promote. rewrite Hparse.
  pose proof (dirty_script args w w (conj Hdirty (same_repo_refl w))) as H.
  destruct (script args w) as [[[]|e] w']; simpl in *; [contradiction | exact H].
Qed.

Lemma dirty_working_tree_blocks_witness :
  exit_code (fst (promote Scenario.staging_forced Scenario.dirty)) = 1%Z
  /\ same_repo Scenario.dirty (snd (promote Scenario.staging_forced Scenario.dirty)).
Proof.
  apply (dirty_working_tree_blocks Scenario.staging_forced
           (mkArgs "staging" "prerelease" true None false EmptyString)).
  - reflexivity.
  - discriminate.
Defined.

(** ** The command line *)

Lemma parse_args_fields a args :
  parse_args a = Ok args ->
  a_stage a = Some (stage args) /\ force args = a_force a /\
  release_notes args = a_release_notes a /\ dry_run args = a_dry_run a /\
  (a_release a = None /\ release args = "prerelease" \/
   a_release a = Some (release args) /\ git.mem (release args) choices = true).
Proof.
  unfold parse_args. destruct (a_stage a) as [st|]; [|discriminate].
  destruct (a_release a) as [r|].
  - destruct (git.mem r choices) eqn:Hr; [|discriminate].
    intros [= <-]. simpl. auto 10.
  - intros [= <-]. simpl. auto 10.
Qed.

(** Whatever the command line, the value of [--release] is a non-empty
    string. *)
Lemma release_truthy a args : parse_args a = Ok args -> Py.truthy (release args) = true.
Proof.
  intros H. destruct (parse_args_fields a args H) as (_&_&_&_&[[_ Hr]|[_ Hr]]).
  - rewrite Hr. reflexivity.
  - destruct (release args); [discriminate Hr | reflexivity].
Qed.

(** ** Promotion to prod *)

(** C3. For every command line that parses and names the stage [prod],
    with or without [--release], the value of [release] is truthy, the
    run ends with exit status 1, and it ends at the check of the release
    type: once the configuration is read the script prints the warning
    and exits, and when the configuration cannot be read it stops there.
    Nothing after the check is ever run, so neither is the computation of
    a finalized version. *)
Theorem prod_always_rejected (a : argv) (args : cmd_args) (w : World) :
  parse_args a = Ok args ->
  a_stage a = Some "prod" ->
  Py.truthy (release args) = true /\
  exit_code (fst (promote a w)) = 1%Z /\
  match startup args w with
  | (Ok _, w1) => promote a w = (Raise (SystemExit 1), log (EvPrint release_type_warning) w1)
  | (Raise e, w1) => promote a w = (Raise e, w1)
  end.
Proof.
  intros Hparse Hstage.
  pose proof (release_truthy a args Hparse) as Hrel.
  destruct (parse_args_fields a args Hparse) as (Hst&_).
  rewrite Hstage in Hst. injection Hst as Hst.
  assert (Hrun : promote a w =
                 match startup args w with
                 | (Ok _, w1) => (Raise (SystemExit 1), log (EvPrint release_type_warning) w1)
                 | (Raise e, w1) => (Raise e, w1)
                 end).
  { unfold promote. rewrite Hparse. unfold script, preparation, bind at 1 2.
    destruct (startup args w) as [[config|e] w1]; [|reflexivity].
    unfold bind, check_release_type. rewrite <- Hst, Hrel. reflexivity. }
  split; [exact Hrel|]. split.
  - rewrite Hrun.
    pose proof (frame_startup (fun _ => True) (fun e _ => exit_code (@Raise unit e) = 1%Z)
                  (fun _ _ _ H => H) args (fun _ _ _ => Logic.I) w Logic.I) as H.
    destruct (startup args w) as [[config|e] w1]; [reflexivity | exact H].
  - destruct (startup args w) as [[config|e] w1]; exact Hrun.
Qed.

Lemma prod_always_rejected_witness :
  promote Scenario.prod Scenario.fine
  = (Raise (SystemExit 1), log (EvPrint release_type_warning) Scenario.fine).
Proof.
  pose proof (prod_always_rejected Scenario.prod
                (mkArgs "prod" "prerelease" false None false EmptyString) Scenario.fine
                eq_refl eq_refl) as (_ & _ & H).
  exact H.
Defined.

(** C2 (the code departs from it).  [promote.py prod], without
    [--release]: the run is not accepted past the check of the release
    type, it prints the warning and exits with status 1. *)
Theorem prod_without_release_type_rejected :
  a_release Scenario.prod = None /\
  fst (promote Scenario.prod Scenario.fine) = Raise (SystemExit 1) /\
  w_log (snd (promote Scenario.prod Scenario.fine)) = [EvPrint release_type_warning].
Proof. vm_compute. auto. Qed.

(** ** Dry run *)

Lemma truthy_nonempty s : s <> EmptyString -> Py.truthy s = true.
Proof. destruct s; [congruence | reflexivity]. Qed.

Lemma dry_run_version args w0 w1 p :
  dry_run args = true ->
  hoare (dry_inv w0 w1) (promote_and_publish args p) (fun _ => dry_inv w0 w1)
    (fun _ => dry_inv w0 w1).
Proof.
  intros Hdry. apply frame_dry_run; auto.
  intros e w He [Hs Hf]. split; [apply same_repo_log; auto | exact Hf].
Qed.

(** C8. A run with [--dry-run] that gets as far as computing the version
    leaves the remote branches, the releases and the local repository as
    they were and makes neither a push nor a POST; the release notes are
    the rendering of what [git log] prints for the two branches, and when
    [--release-notes] names a file, that file holds them at the end of
    the run. *)
Theorem dry_run_changes_nothing (a : argv) (args : cmd_args) (w : World)
    (p : Prepared) (w1 : World) :
  parse_args a = Ok args ->
  a_dry_run a = true ->
  preparation args w = (Ok p, w1) ->
  same_repo w (snd (promote a w)) /\
  (exists out,
      git.log_subjects (w_git w) (notes_range (src_branch p) (dst_branch p)) = Some out
      /\ notes p = render_notes out) /\
  (forall file, a_release_notes a = Some file -> file <> EmptyString ->
     w_files (snd (promote a w)) !! (w_cwd (snd (promote a w)), file) = Some (notes p)).
Proof.
  intros Hparse Hdry Hprep.
  destruct (parse_args_fields a args Hparse) as (_&_&Hnotes&Hd&_).
  rewrite Hdry in Hd.
  pose proof (hoare_run _ _ _ _ w _ w1
                (frame_preparation (same_repo w) (fun _ _ => True)
                   (same_repo_log w) (fun _ _ _ _ => Logic.I) args
                   (fun _ _ H => H) (fun _ _ H => H))
                (same_repo_refl w) Hprep) as (Hrepo & (out & Hout & Hrender) & Hfile).
  assert (Hrun : promote a w = promote_and_publish args p w1).
  { unfold promote. rewrite Hparse. unfold script, bind. rewrite Hprep. reflexivity. }
  rewrite Hrun.
  pose proof (dry_run_version args w w1 p Hd w1 (conj Hrepo (conj eq_refl eq_refl))) as H.
  assert (Hend : same_repo w (snd (promote_and_publish args p w1))
                 /\ same_files w1 (snd (promote_and_publish args p w1))).
  { destruct (promote_and_publish args p w1) as [[[]|e] w2]; exact H. }
  destruct Hend as [Hrepo2 [Hfiles Hcwd]].
  split; [exact Hrepo2|]. split.
  - exists out. split; [|exact Hrender].
    destruct Hrepo as (_ & Hgit & _). rewrite <- Hgit. exact Hout.
  - intros file Hfile_given Hne. rewrite Hfiles, Hcwd.
    apply Hfile; [congruence | apply truthy_nonempty; exact Hne].
Qed.

Lemma dry_run_changes_nothing_witness :
  same_repo Scenario.fine (snd (promote Scenario.staging_dry Scenario.fine)) /\
  w_files (snd (promote Scenario.staging_dry Scenario.fine)) !! ("/work", "notes.txt")
  = Some ("- Add feature" +:+ nl +:+ "- Hotfix on staging").
Proof.
  pose (args := mkArgs "staging" "prerelease" false (Some "notes.txt") true EmptyString).
  destruct (preparation args Scenario.fine) as [r w1] eqn:Hprep.
  assert (Hr : r = Ok (mkPrepared "t0k3n" "acme/app" "integration" "staging" true
                         ("- Add feature" +:+ nl +:+ "- Hotfix on staging"))).
  { apply (f_equal fst) in Hprep. vm_compute in Hprep. symmetry. exact Hprep. }
  subst r.
  destruct (dry_run_changes_nothing Scenario.staging_dry args Scenario.fine _ w1
              eq_refl eq_refl Hprep) as (Hrepo & _ & Hfile).
  split; [exact Hrepo|].
  apply (Hfile "notes.txt"); [reflexivity | discriminate].
Defined.

(** ** Publication failure *)

(** C1 (the code departs from it).  [staging] is at the root commit, the
    promotion pushes the tip of [integration] to it, and the service
    answers the POST with status 500.  The rollback stops at its
    [git checkout], which is given a revision that names no ref; the run
    ends with that [CalledProcessError], after a single push, and
    [staging] is left at the promoted commit. *)
Theorem failed_publication_not_rolled_back :
  let final := promote Scenario.staging Scenario.refusing in
  h_branches (w_hub Scenario.refusing) !! "staging" = Some "a1a1a1a1a1" /\
  fst final = Raise (CalledProcessError (rollback_checkout "a1a1a1a1a1")) /\
  exit_code (fst final) = 1%Z /\
  h_branches (w_hub (snd final)) !! "staging" = Some "b2b2b2b2b2" /\
  map (fun e => match e with EvRun args => args | _ => [] end)
      (mutations (w_log (snd final)))
  = [["git"; "push"; "--force"; "origin"; "staging"]; []].
Proof. vm_compute. repeat split. Qed.

(** ** Commits of the destination that the source does not have *)

(** C10 (the code departs from it).  [staging] holds the hotfix, which
    is not reachable from [integration].  Without [--force] the check
    prints no warning, the run ends with exit status 0 and [staging] is
    pushed over: the hotfix is no longer reachable from it. *)
Theorem lost_commit_not_detected :
  let store := g_commits (w_git Scenario.fine) in
  let ids tip := map c_id (git.reachable [tip] store) in
  let final := promote Scenario.staging Scenario.fine in
  a_force Scenario.staging = false /\
  h_branches (w_hub Scenario.fine) !! "staging" = Some "c3c3c3c3c3" /\
  h_branches (w_hub Scenario.fine) !! "integration" = Some "b2b2b2b2b2" /\
  git.mem "c3c3c3c3c3" (ids "c3c3c3c3c3") = true /\
  git.mem "c3c3c3c3c3" (ids "b2b2b2b2b2") = false /\
  git.log_paths (w_git Scenario.fine) ["integration"; "^staging"] = Some EmptyString /\
  fst final = Ok tt /\
  exit_code (fst final) = 0%Z /\
  h_branches (w_hub (snd final)) !! "staging" = Some "b2b2b2b2b2" /\
  List.filter (fun e => match e with
                        | EvPrint text => String.prefix "Warning" text
                        | _ => false
                        end) (w_log (snd final)) = [].
Proof. vm_compute. repeat split. Qed.

(** What the check does with the output of its [git log]: when it is not
    empty, the run stops with status 1 without [--force] and goes on with
    it; in both cases the list is printed. *)
Lemma check_diff_on_output (args : cmd_args) (src dst out : string) (w : World) :
  git.log_paths (w_git w) [src; "^" +:+ dst] = Some out ->
  out <> EmptyString ->
  let listing := EvPrint ("Warning: the following commits are present on " +:+ dst
                          +:+ " but not on " +:+ src +:+ ": " +:+ nl +:+ out) in
  fst (check_diff args src dst w) = (if force args then Ok tt else Raise (SystemExit 1)) /\
  In listing (w_log (snd (check_diff args src dst w))).
Proof.
  intros Hout Hne. destruct out as [|c out]; [congruence|].
  unfold check_diff, _subprocess, bind, print, subprocess_run.
  rewrite decode_log_paths. simpl. rewrite Hout. simpl.
  destruct (force args); simpl; (split; [reflexivity|]);
    rewrite ?in_app_iff; simpl; tauto.
Qed.

(** ** The current version *)

(** [get_current_version] as a function of the listing. *)
Lemma get_current_version_eq args repo st w :
  h_listing (w_hub w) = true ->
  get_current_version args repo st w =
  (match
     (if nonempty (h_releases (w_hub w)) && String.eqb (effective_stage args st) "staging"
      then versions_where is_rc (h_releases (w_hub w))
      else if nonempty (h_releases (w_hub w)) && String.eqb (effective_stage args st) "prod"
      then versions_where is_final (h_releases (w_hub w))
      else Some [semver.mkVersion 0 0 0 None None])
   with
   | Some versions =>
       match semver.max versions with
       | Some greatest => Ok (semver.str greatest)
       | None => Raise ValueError
       end
   | None => Raise ValueError
   end, log (EvGet (releases_url repo)) w).
Proof.
  intros Hl. unfold get_current_version, bind, requests_get. simpl. rewrite Hl.
  fold (effective_stage args st). fold (releases_url repo).
  destruct (nonempty (h_releases (w_hub w)) && String.eqb (effective_stage args st) "staging").
  - destruct (versions_where is_rc _) as [vs|]; simpl; [|reflexivity].
    destruct (semver.max vs); reflexivity.
  - destruct (nonempty (h_releases (w_hub w)) && String.eqb (effective_stage args st) "prod").
    + destruct (versions_where is_final _) as [vs|]; simpl; [|reflexivity].
      destruct (semver.max vs); reflexivity.
    + reflexivity.
Qed.

(** The example of the specification: for the releases 1.0.0,
    1.1.0-rc.0 and 1.1.0-rc.1 the current version is 1.1.0-rc.1 for
    staging and 1.0.0 for prod. *)
Example current_version_staging :
  fst (get_current_version staging_args "acme/app" None
         (Scenario.tagged ["1.0.0"; "1.1.0-rc.0"; "1.1.0-rc.1"])) = Ok "1.1.0-rc.1".
Proof. reflexivity. Qed.

Example current_version_prod :
  fst (get_current_version staging_args "acme/app" (Some "prod")
         (Scenario.tagged ["1.0.0"; "1.1.0-rc.0"; "1.1.0-rc.1"])) = Ok "1.0.0".
Proof. reflexivity. Qed.

Example current_version_no_release :
  fst (get_current_version staging_args "acme/app" None (Scenario.tagged [])) = Ok "0.0.0".
Proof. reflexivity. Qed.

(** C4 (the code departs from it).  The only release is 1.0.0: no
    release qualifies for staging, and [get_current_version] raises
    [ValueError], from [max] of an empty list, where 0.0.0 is expected.
    The same happens for prod when all releases are release candidates. *)
Theorem current_version_none_qualifying :
  versions_where is_rc ["1.0.0"] = Some [] /\
  fst (get_current_version staging_args "acme/app" (Some "staging") (Scenario.tagged ["1.0.0"]))
  = Raise ValueError /\
  versions_where is_final ["0.1.0-rc.0"] = Some [] /\
  fst (get_current_version staging_args "acme/app" (Some "prod") (Scenario.tagged ["0.1.0-rc.0"]))
  = Raise ValueError.
Proof. vm_compute. repeat split. Qed.

(** The comprehension raises as soon as one tag does not parse. *)
Lemma versions_where_malformed keep (releases : list string) tag :
  In tag releases -> semver.parse_version_info tag = None ->
  versions_where keep releases = None.
Proof.
  induction releases as [|t rest IH]; intros Hin Hbad; [destruct Hin|].
  simpl. destruct Hin as [->|Hin].
  - rewrite Hbad. reflexivity.
  - destruct (semver.parse_version_info t); [|reflexivity].
    rewrite (IH Hin Hbad). reflexivity.
Qed.

(** When every tag parses, the comprehension is the filter of the
    parsed tags. *)
Lemma versions_where_parsed keep (releases : list string) (vs : list semver.VersionInfo) :
  map semver.parse_version_info releases = map Some vs ->
  versions_where keep releases = Some (List.filter keep vs).
Proof.
  revert vs. induction releases as [|t rest IH]; intros [|v vs] H; try discriminate.
  - reflexivity.
  - simpl in H. injection H as Hv Hrest. simpl. rewrite Hv, (IH vs Hrest).
    destruct (keep v); reflexivity.
Qed.

(** Without any release the current version is 0.0.0, whatever the
    stage. *)
Lemma current_version_empty_listing args repo st w :
  h_listing (w_hub w) = true ->
  h_releases (w_hub w) = [] ->
  get_current_version args repo st w = (Ok "0.0.0", log (EvGet (releases_url repo)) w).
Proof.
  intros Hl Hr. rewrite (get_current_version_eq args repo st w Hl), Hr. reflexivity.
Qed.

(** With releases whose tags all parse, the current version for staging
    or prod is the first greatest of the qualifying versions, and the
    call raises [ValueError] when no version qualifies. *)
Lemma current_version_of_listing args repo s w (vs : list semver.VersionInfo) :
  h_listing (w_hub w) = true ->
  h_releases (w_hub w) <> [] ->
  s = "staging" \/ s = "prod" ->
  map semver.parse_version_info (h_releases (w_hub w)) = map Some vs ->
  get_current_version args repo (Some s) w =
  (match List.filter (if String.eqb s "staging" then is_rc else is_final) vs with
   | [] => Raise ValueError
   | v :: rest => Ok (semver.str (semver.max_from v rest))
   end, log (EvGet (releases_url repo)) w).
Proof.
  intros Hl Hne Hs Hparse. rewrite (get_current_version_eq args repo (Some s) w Hl).
  assert (Hn : nonempty (h_releases (w_hub w)) = true)
    by (destruct (h_releases (w_hub w)); [contradiction | reflexivity]).
  assert (Hst : effective_stage args (Some s) = s)
    by (unfold effective_stage; destruct Hs as [-> | ->]; reflexivity).
  rewrite Hn, Hst.
  destruct Hs as [-> | ->]; simpl;
    rewrite (versions_where_parsed _ _ vs Hparse);
    destruct (List.filter _ vs); reflexivity.
Qed.

Lemma max_from_In v l : semver.max_from v l = v \/ In (semver.max_from v l) l.
Proof.
  revert v. induction l as [|x l IH]; intros v; simpl; [auto|].
  destruct (IH (if semver.gt x v then x else v)) as [H|H]; [|auto].
  rewrite H. destruct (semver.gt x v); auto.
Qed.

(** The counterexample to C5: with the releases 1.0.0 and v1.1.0, the
    current version for prod is not 1.0.0, the greatest of the tags that
    parse; the call raises [ValueError]. *)
Lemma malformed_tag_not_skipped :
  semver.parse_version_info "v1.1.0" = None /\
  fst (get_current_version staging_args "acme/app" (Some "prod") (Scenario.tagged ["1.0.0"]))
  = Ok "1.0.0" /\
  fst (get_current_version staging_args "acme/app" (Some "prod")
         (Scenario.tagged ["1.0.0"; "v1.1.0"])) = Raise ValueError /\
  fst (get_current_version staging_args "acme/app" (Some "prod")
         (Scenario.tagged ["1.0.0"; "v1.1.0"])) <> Ok "1.0.0".
Proof. vm_compute. repeat split. discriminate. Qed.

(** C5, amended.  When the listing holds a tag that is not a semantic
    version, [get_current_version] for the stage staging or prod raises
    [ValueError]: it returns no version, and all it has done is fetch the
    listing. *)
Theorem malformed_tag_raises (args : cmd_args) (repo s tag : string) (w : World) :
  h_listing (w_hub w) = true ->
  s = "staging" \/ s = "prod" ->
  In tag (h_releases (w_hub w)) ->
  semver.parse_version_info tag = None ->
  get_current_version args repo (Some s) w
  = (Raise ValueError, log (EvGet (releases_url repo)) w).
Proof.
  intros Hl Hs Hin Hbad. rewrite (get_current_version_eq args repo (Some s) w Hl).
  assert (Hne : nonempty (h_releases (w_hub w)) = true).
  { destruct (h_releases (w_hub w)); [destruct Hin | reflexivity]. }
  rewrite Hne.
  assert (Hst : effective_stage args (Some s) = s).
  { unfold effective_stage. destruct Hs as [-> | ->]; reflexivity. }
  rewrite Hst.
  destruct Hs as [-> | ->]; simpl;
    rewrite (versions_where_malformed _ _ tag Hin Hbad); reflexivity.
Qed.

Lemma malformed_tag_raises_witness :
  get_current_version staging_args "acme/app" (Some "prod") (Scenario.tagged ["1.0.0"; "v1.1.0"])
  = (Raise ValueError,
     log (EvGet (releases_url "acme/app")) (Scenario.tagged ["1.0.0"; "v1.1.0"])).
Proof.
  apply (malformed_tag_raises staging_args "acme/app" "prod" "v1.1.0").
  - reflexivity.
  - right. reflexivity.
  - simpl. right. left. reflexivity.
  - reflexivity.
Defined.

(** ** The next version *)

(** When the source branch is not called [prod], the next version is the
    bumped and labelled current version of the stage. *)
Lemma update_version_bump args repo src dst :
  String.eqb src "prod" = false ->
  update_version args repo src dst =
  (let* cur_version := get_current_version args repo (Some (stage args)) in
   let* _new_version := bump_and_label args cur_version in
   if String.eqb cur_version _new_version then print "Nothing to promote" >> exit 0
   else print ("Upgrading: " +:+ cur_version +:+ " -> " +:+ _new_version) >> ret _new_version).
Proof. intros H. unfold update_version. rewrite H. reflexivity. Qed.

(** When the source branch is called [prod], the next version is the
    finalized current version of the stage named like the destination
    branch. *)
Lemma update_version_finalize args repo dst :
  update_version args repo "prod" dst =
  (let* cur_version := get_current_version args repo (Some (stage args)) in
   let* _new_version :=
     (let* prv_version := get_current_version args repo (Some dst) in
      lift ValueError (semver.finalize_version prv_version)) in
   if String.eqb cur_version _new_version then print "Nothing to promote" >> exit 0
   else print ("Upgrading: " +:+ cur_version +:+ " -> " +:+ _new_version) >> ret _new_version).
Proof. reflexivity. Qed.

Example finalize_example : semver.finalize_version "1.2.0-rc.3" = Some "1.2.0".
Proof. reflexivity. Qed.

Example update_version_from_prod :
  fst (update_version staging_args "acme/app" "prod" "staging"
         (Scenario.tagged ["1.0.0"; "1.2.0-rc.3"])) = Ok "1.2.0".
Proof. reflexivity. Qed.

(** C7 (the code departs from it).  The stage [prod] promotes the branch
    [staging] to the branch [prod]; the releases are 1.0.0 and
    1.2.0-rc.3.  The run stops at the check of the release type with
    status 1.  [update_version] itself, called as the script would call
    it, does not finalize the release candidate of staging to 1.2.0: the
    source branch is not called [prod], so it bumps the current version
    of prod, to 1.0.0-rc.1. *)
Theorem prod_promotion_does_not_finalize :
  let w := Scenario.tagged ["1.0.0"; "1.2.0-rc.3"] in
  release_map Scenario.config !! "prod" = Some (mkStage "staging" "prod" false) /\
  fst (promote Scenario.prod w) = Raise (SystemExit 1) /\
  fst (get_current_version prod_args "acme/app" (Some "staging") w) = Ok "1.2.0-rc.3" /\
  fst (update_version prod_args "acme/app" "staging" "prod" w) = Ok "1.0.0-rc.1".
Proof. vm_compute. repeat split. Qed.

(** The example of the specification for the prerelease bump. *)
Example bump_prerelease_rc0 :
  fst (bump_and_label (with_release "prerelease") "1.2.0-rc.0" Scenario.fine) = Ok "1.2.0-rc.1".
Proof. reflexivity. Qed.

Example update_version_staging :
  fst (update_version (with_release "prerelease") "acme/app" "integration" "staging"
         (Scenario.tagged ["1.0.0"; "1.2.0-rc.0"])) = Ok "1.2.0-rc.1".
Proof. reflexivity. Qed.

(** The counterexample to C6: a patch bump of 1.2.0 yields 1.2.1-rc.1,
    not 1.2.1-rc.0, and so does [promote.py staging --release patch] when
    the current version of staging is 1.2.0-rc.0. *)
Lemma label_does_not_start_at_rc0 :
  fst (bump_and_label (with_release "patch") "1.2.0" Scenario.fine) = Ok "1.2.1-rc.1" /\
  fst (bump_and_label (with_release "patch") "1.2.0" Scenario.fine) <> Ok "1.2.1-rc.0" /\
  map rb_tag_name
    (h_drafts (w_hub (snd (promote (mkArgv (Some "staging") (Some "patch") false None false None)
                             (Scenario.tagged ["1.2.0-rc.0"])))))
  = ["1.2.1-rc.1"].
Proof. vm_compute. repeat split. discriminate. Qed.

(** ** Strings of digits and formatted versions *)

Lemma all_chars_app p a b :
  Py.all_chars p (a +:+ b) = Py.all_chars p a && Py.all_chars p b.
Proof.
  induction a as [|c a IH]; simpl; [reflexivity|].
  rewrite IH. apply andb_assoc.
Qed.

Lemma all_chars_impl (p q : ascii -> bool) s :
  (forall c, p c = true -> q c = true) ->
  Py.all_chars p s = true -> Py.all_chars q s = true.
Proof.
  intros Hpq. induction s as [|c s IH]; simpl; [reflexivity|].
  intros [Hc Hs]%andb_true_iff. rewrite (Hpq c Hc), (IH Hs). reflexivity.
Qed.

Lemma digits_absent c s :
  Py.is_digit c = false -> Py.all_chars Py.is_digit s = true -> absent c s = true.
Proof.
  intros Hc. apply all_chars_impl. intros x Hx.
  destruct (Ascii.eqb_spec x c) as [->|]; [congruence | reflexivity].
Qed.

Lemma absent_app c a b : absent c (a +:+ b) = absent c a && absent c b.
Proof. apply all_chars_app. Qed.

Lemma absent_cons c x s : absent c (String x s) = negb (Ascii.eqb x c) && absent c s.
Proof. reflexivity. Qed.

Lemma cut_absent c s : absent c s = true -> semver.cut c s = (s, None).
Proof.
  induction s as [|a s IH]; simpl; [reflexivity|].
  intros [Ha Hs]%andb_true_iff. apply negb_true_iff in Ha. rewrite Ha, (IH Hs). reflexivity.
Qed.

Lemma cut_app c a b : absent c a = true -> semver.cut c (a +:+ String c b) = (a, Some b).
Proof.
  induction a as [|x a IH]; simpl.
  - intros _. rewrite Ascii.eqb_refl. reflexivity.
  - intros [Hx Ha]%andb_true_iff. apply negb_true_iff in Hx. rewrite Hx, (IH Ha). reflexivity.
Qed.

Lemma split_absent sep s : absent sep s = true -> Py.split sep s = [s].
Proof.
  induction s as [|a s IH]; simpl; [reflexivity|].
  intros [Ha Hs]%andb_true_iff. apply negb_true_iff in Ha. rewrite Ha, (IH Hs). reflexivity.
Qed.

Lemma split_app sep a b :
  absent sep a = true -> Py.split sep (a +:+ String sep b) = a :: Py.split sep b.
Proof.
  induction a as [|x a IH]; simpl.
  - intros _. rewrite Ascii.eqb_refl. reflexivity.
  - intros [Hx Ha]%andb_true_iff. apply negb_true_iff in Hx. rewrite Hx, (IH Ha). reflexivity.
Qed.

Lemma chomp_absent s : absent lf s = true -> semver.chomp s = s.
Proof.
  induction s as [|a s IH]; [reflexivity|].
  intros [Ha Hs]%andb_true_iff. apply negb_true_iff in Ha.
  change (semver.chomp (String a s))
    with (match s with
          | EmptyString => if Ascii.eqb a lf then EmptyString else String a s
          | String _ _ => String a (semver.chomp s)
          end).
  destruct s; [rewrite Ha; reflexivity | rewrite (IH Hs); reflexivity].
Qed.

Lemma append_cons c (a b : string) : String c a +:+ b = String c (a +:+ b).
Proof. reflexivity. Qed.

Lemma append_assoc (a b c : string) : (a +:+ b) +:+ c = a +:+ (b +:+ c).
Proof.
  induction a as [|x a IH]; [reflexivity|].
  rewrite !append_cons, IH. reflexivity.
Qed.

Lemma length_append (a b : string) :
  String.length (a +:+ b) = (String.length a + String.length b)%nat.
Proof.
  induction a as [|x a IH]; [reflexivity|].
  rewrite append_cons. simpl. rewrite IH. reflexivity.
Qed.

Lemma substring_all s : String.substring 0 (String.length s) s = s.
Proof. induction s as [|c s IH]; simpl; [reflexivity | rewrite IH; reflexivity]. Qed.

Lemma substring_end s : String.substring (String.length s) 0 s = EmptyString.
Proof. induction s as [|c s IH]; simpl; [reflexivity | exact IH]. Qed.

(** *** Decimal numerals *)

Lemma digits_of_uint d : Py.all_chars Py.is_digit (NilEmpty.string_of_uint d) = true.
Proof. induction d; simpl; auto. Qed.

Lemma length_of_uint d : String.length (NilEmpty.string_of_uint d) = Decimal.nb_digits d.
Proof. induction d; simpl; auto. Qed.

Lemma to_uint_nonnil n : N.to_uint n <> Decimal.Nil.
Proof.
  destruct n as [|p]; simpl; [discriminate | apply DecimalPos.Unsigned.to_uint_nonnil].
Qed.

Lemma str_of_int_eq n : Py.str_of_int n = NilEmpty.string_of_uint (N.to_uint n).
Proof.
  unfold Py.str_of_int, NilZero.string_of_uint.
  pose proof (to_uint_nonnil n). destruct (N.to_uint n); [contradiction | reflexivity ..].
Qed.

Lemma str_of_int_digits n : Py.all_chars Py.is_digit (Py.str_of_int n) = true.
Proof. rewrite str_of_int_eq. apply digits_of_uint. Qed.

Lemma int_of_str_of_int n : Py.int_of_str (Py.str_of_int n) = Some n.
Proof.
  unfold Py.int_of_str, Py.str_of_int.
  rewrite (NilZero.usu _ (to_uint_nonnil n)), DecimalN.Unsigned.of_to. reflexivity.
Qed.

Lemma to_uint_normal n : Decimal.unorm (N.to_uint n) = N.to_uint n.
Proof.
  rewrite <- (DecimalN.Unsigned.of_to n) at 2. symmetry. apply DecimalN.Unsigned.to_of.
Qed.

(** A numeral without leading zero is [0] or starts with another digit. *)
Lemma str_of_int_numeric n : semver.is_numeric_id (Py.str_of_int n) = true.
Proof.
  rewrite str_of_int_eq. pose proof (to_uint_normal n) as Hn.
  pose proof (to_uint_nonnil n) as Hnil.
  destruct (N.to_uint n) as [|d|d|d|d|d|d|d|d|d|d]; try contradiction;
    try (simpl; apply digits_of_uint).
  assert (d = Decimal.Nil) as ->; [|reflexivity].
  rewrite DecimalFacts.unorm_D0 in Hn. unfold Decimal.unorm in Hn.
  destruct (Decimal.nzhead d) eqn:Hd; try (injection Hn as Hn; congruence);
    exfalso; apply (DecimalFacts.nzhead_nonzero d d); congruence.
Qed.

Lemma str_of_int_nonempty n : Py.truthy (Py.str_of_int n) = true.
Proof.
  pose proof (str_of_int_numeric n). destruct (Py.str_of_int n); [discriminate | reflexivity].
Qed.

Lemma nb_digits_succ d : (Decimal.nb_digits d <= Decimal.nb_digits (Decimal.Little.succ d))%nat.
Proof. induction d; simpl; lia. Qed.

Lemma to_uint_rev n : N.to_uint n = Decimal.rev (DecimalPos.Unsigned.to_lu n).
Proof. destruct n; reflexivity. Qed.

(** The numeral of [n + 1] is at least as long as that of [n]. *)
Lemma length_str_of_int_succ n :
  (String.length (Py.str_of_int n) <= String.length (Py.str_of_int (n + 1)))%nat.
Proof.
  rewrite !str_of_int_eq, !length_of_uint, !to_uint_rev, !DecimalFacts.nb_digits_rev.
  rewrite N.add_1_r, DecimalPos.Unsigned.to_lu_succ. apply nb_digits_succ.
Qed.

(** *** Formatted versions parse back *)

Lemma format_version_plain ma mi pa : semver.format_version ma mi pa None None = core ma mi pa.
Proof. reflexivity. Qed.

Lemma format_version_pre ma mi pa pre :
  semver.format_version ma mi pa (Some pre) None = core ma mi pa +:+ String "-" pre.
Proof. reflexivity. Qed.

Lemma core_absent c ma mi pa :
  Py.is_digit c = false -> Ascii.eqb "." c = false -> absent c (core ma mi pa) = true.
Proof.
  intros Hd Hdot. unfold core.
  rewrite absent_app, absent_cons, absent_app, absent_cons, Hdot.
  rewrite !digits_absent; auto using str_of_int_digits.
Qed.

Lemma split_core ma mi pa :
  Py.split "." (core ma mi pa) = [Py.str_of_int ma; Py.str_of_int mi; Py.str_of_int pa].
Proof.
  unfold core.
  rewrite !split_app, split_absent; auto using digits_absent, str_of_int_digits.
Qed.

Lemma parse_core core_ pre ma mi pa :
  Py.split "." core_ = [Py.str_of_int ma; Py.str_of_int mi; Py.str_of_int pa] ->
  semver.ids_ok semver.is_prerelease_id pre = true ->
  match Py.split "." core_ with
  | [a; b; c] =>
      if semver.is_numeric_id a && semver.is_numeric_id b && semver.is_numeric_id c
         && semver.ids_ok semver.is_prerelease_id pre && semver.ids_ok semver.is_build_id None
      then
        match Py.int_of_str a, Py.int_of_str b, Py.int_of_str c with
        | Some x, Some y, Some z => Some (semver.mkVersion x y z pre None)
        | _, _, _ => None
        end
      else None
  | _ => None
  end = Some (semver.mkVersion ma mi pa pre None).
Proof.
  intros -> Hpre. rewrite !str_of_int_numeric, Hpre, !int_of_str_of_int. reflexivity.
Qed.

Lemma parse_format ma mi pa pre :
  label_ok pre = true ->
  semver.parse_version_info (semver.format_version ma mi pa pre None)
  = Some (semver.mkVersion ma mi pa pre None).
Proof.
  intros Hok. unfold semver.parse_version_info. destruct pre as [s|].
  - simpl in Hok. apply andb_true_iff in Hok as [[Hlf Hplus]%andb_true_iff Hids].
    rewrite format_version_pre.
    rewrite chomp_absent, cut_absent.
    + rewrite cut_app by (apply core_absent; reflexivity).
      apply parse_core; [apply split_core | exact Hids].
    + rewrite absent_app, absent_cons, core_absent, Hplus; reflexivity.
    + rewrite absent_app, absent_cons, core_absent, Hlf; reflexivity.
  - rewrite format_version_plain.
    rewrite chomp_absent, !cut_absent by (apply core_absent; reflexivity).
    apply parse_core; [apply split_core | reflexivity].
Qed.

Lemma rc_eq n : rc n = String "r" (String "c" (String "." (Py.str_of_int n))).
Proof. reflexivity. Qed.

Lemma numeric_is_prerelease_id s :
  semver.is_numeric_id s = true -> semver.is_prerelease_id s = true.
Proof.
  destruct s as [|c r]; simpl; [discriminate|].
  intros [H|[Hc Hr]%andb_true_iff]%orb_true_iff.
  - rewrite H. reflexivity.
  - rewrite Hc. simpl. apply orb_true_iff. right.
    apply (all_chars_impl Py.is_digit); [|exact Hr].
    intros x Hx. unfold semver.is_id_char. rewrite Hx. reflexivity.
Qed.

Lemma label_ok_rc n : label_ok (Some (rc n)) = true.
Proof.
  unfold label_ok. rewrite rc_eq, !absent_cons.
  rewrite !digits_absent by auto using str_of_int_digits.
  change (Py.split "." (String "r" (String "c" (String "." (Py.str_of_int n)))))
    with ("rc" :: Py.split "." (Py.str_of_int n)).
  rewrite split_absent by auto using digits_absent, str_of_int_digits.
  simpl. rewrite numeric_is_prerelease_id by apply str_of_int_numeric. reflexivity.
Qed.

(** *** Incrementing the label *)

Lemma last_number_run i start found ds :
  Py.all_chars Py.is_digit ds = true ->
  semver.last_number_from i (Some start) found ds = Some (start, (i + String.length ds)%nat).
Proof.
  revert i. induction ds as [|c ds IH]; intros i; simpl.
  - intros _. rewrite Nat.add_0_r. reflexivity.
  - intros [Hc Hds]%andb_true_iff. rewrite Hc, (IH (S i) Hds). f_equal. f_equal. lia.
Qed.

Lemma last_number_rc n :
  semver.last_number (rc n) = Some (3, 3 + String.length (Py.str_of_int n))%nat.
Proof.
  rewrite rc_eq. unfold semver.last_number. simpl.
  pose proof (str_of_int_digits n) as Hd. pose proof (str_of_int_nonempty n) as Hne.
  destruct (Py.str_of_int n) as [|c ds]; [discriminate|].
  simpl in Hd. apply andb_true_iff in Hd as [Hc Hds].
  simpl. rewrite Hc, (last_number_run 4 3 None ds Hds). reflexivity.
Qed.

Lemma increment_rc n : semver._increment_string (rc n) = rc (n + 1).
Proof.
  unfold semver._increment_string. rewrite last_number_rc.
  replace (3 + String.length (Py.str_of_int n) - 3)%nat
    with (String.length (Py.str_of_int n)) by lia.
  assert (Hsub : String.substring 3 (String.length (Py.str_of_int n)) (rc n) = Py.str_of_int n).
  { rewrite rc_eq. simpl. apply substring_all. }
  rewrite Hsub, int_of_str_of_int.
  pose proof (length_str_of_int_succ n) as Hlen.
  replace (Nat.max (3 + String.length (Py.str_of_int n)
                    - String.length (Py.str_of_int (n + 1))) 3) with 3%nat by lia.
  assert (Htake : Py.take 3 (rc n) = "rc.").
  { rewrite rc_eq. destruct (Py.str_of_int n); reflexivity. }
  assert (Hdrop : Py.drop (3 + String.length (Py.str_of_int n)) (rc n) = EmptyString).
  { unfold Py.drop. rewrite rc_eq. simpl.
    rewrite Nat.sub_diag. apply substring_end. }
  rewrite Htake, Hdrop. unfold rc.
  rewrite <- (append_assoc "rc." (Py.str_of_int (n + 1)) EmptyString).
  generalize ("rc." +:+ Py.str_of_int (n + 1)). intros s.
  induction s as [|c s IH]; [reflexivity|]. rewrite append_cons, IH. reflexivity.
Qed.

(** *** The bump followed by the label *)

(** A version without prerelease label, out of [bump_major],
    [bump_minor] or [bump_patch], gets the label [rc.1]. *)
Lemma label_attached (ma mi pa : N) (w : World) :
  (let* info := lift ValueError
                  (semver.parse_version_info (semver.format_version ma mi pa None None)) in
   if Py.truthy_opt (semver.prerelease info)
   then ret (semver.format_version ma mi pa None None)
   else lift ValueError
          (semver.bump_prerelease (semver.format_version ma mi pa None None) "rc")) w
  = (Ok (semver.format_version ma mi pa (Some (rc 1)) None), w).
Proof.
  unfold bind. rewrite (parse_format ma mi pa None eq_refl).
  cbn [lift ret semver.prerelease Py.truthy_opt].
  unfold semver.bump_prerelease. rewrite (parse_format ma mi pa None eq_refl). reflexivity.
Qed.

(** A version with the label [rc.n] is left as it is. *)
Lemma label_kept (ma mi pa n : N) (w : World) :
  (let* info := lift ValueError
                  (semver.parse_version_info
                     (semver.format_version ma mi pa (Some (rc n)) None)) in
   if Py.truthy_opt (semver.prerelease info)
   then ret (semver.format_version ma mi pa (Some (rc n)) None)
   else lift ValueError
          (semver.bump_prerelease (semver.format_version ma mi pa (Some (rc n)) None) "rc")) w
  = (Ok (semver.format_version ma mi pa (Some (rc n)) None), w).
Proof.
  unfold bind. rewrite (parse_format ma mi pa (Some (rc n)) (label_ok_rc n)).
  cbn [lift ret semver.prerelease Py.truthy_opt]. rewrite rc_eq. reflexivity.
Qed.

Lemma bind_lift_some {A B} e (a : A) (k : A -> M B) w :
  (let* x := lift e (Some a) in k x) w = k a w.
Proof. reflexivity. Qed.

Lemma bump_kind version :
  bump "major" version = lift ValueError (semver.bump_major version) /\
  bump "minor" version = lift ValueError (semver.bump_minor version) /\
  bump "patch" version = lift ValueError (semver.bump_patch version) /\
  bump "prerelease" version = lift ValueError (semver.bump_prerelease version "rc").
Proof. repeat split. Qed.

(** C6, amended.  When the source branch is not called [prod], the next
    version is the current version of the stage, bumped as requested and
    labelled.  A major, minor or patch bump of a version [M.m.p]
    increments that component, resets those after it and drops the
    labels; the result has no prerelease label and gets the label [rc.1].
    A prerelease bump of a version without label gives it the label
    [rc.1], and a prerelease bump of [M.m.p-rc.n] yields
    [M.m.p-rc.(n+1)]. *)
Theorem bump_and_label_spec (args : cmd_args) (cur : string) (v : semver.VersionInfo)
    (w : World) :
  semver.parse_version_info cur = Some v ->
  (forall repo src dst, String.eqb src "prod" = false ->
     update_version args repo src dst =
     (let* cur_version := get_current_version args repo (Some (stage args)) in
      let* _new_version := bump_and_label args cur_version in
      if String.eqb cur_version _new_version then print "Nothing to promote" >> exit 0
      else print ("Upgrading: " +:+ cur_version +:+ " -> " +:+ _new_version)
           >> ret _new_version)) /\
  (release args = "major" ->
     bump_and_label args cur w
     = (Ok (semver.format_version (semver.major v + 1) 0 0 (Some "rc.1") None), w)) /\
  (release args = "minor" ->
     bump_and_label args cur w
     = (Ok (semver.format_version (semver.major v) (semver.minor v + 1) 0 (Some "rc.1") None),
        w)) /\
  (release args = "patch" ->
     bump_and_label args cur w
     = (Ok (semver.format_version (semver.major v) (semver.minor v) (semver.patch v + 1)
              (Some "rc.1") None), w)) /\
  (release args = "prerelease" -> semver.prerelease v = None ->
     bump_and_label args cur w
     = (Ok (semver.format_version (semver.major v) (semver.minor v) (semver.patch v)
              (Some "rc.1") None), w)) /\
  (release args = "prerelease" -> forall n, semver.prerelease v = Some (rc n) ->
     bump_and_label args cur w
     = (Ok (semver.format_version (semver.major v) (semver.minor v) (semver.patch v)
              (Some (rc (n + 1))) None), w)).
Proof.
  intros Hparse. split; [intros; apply update_version_bump; assumption|].
  destruct (bump_kind cur) as (Hmajor & Hminor & Hpatch & Hpre).
  unfold bump_and_label.
  repeat split; intros Hkind; rewrite Hkind.
  - rewrite Hmajor. unfold semver.bump_major. rewrite Hparse, bind_lift_some.
    apply label_attached.
  - rewrite Hminor. unfold semver.bump_minor. rewrite Hparse, bind_lift_some.
    apply label_attached.
  - rewrite Hpatch. unfold semver.bump_patch. rewrite Hparse, bind_lift_some.
    apply label_attached.
  - intros Hnone. rewrite Hpre. unfold semver.bump_prerelease. rewrite Hparse, Hnone.
    rewrite bind_lift_some. apply (label_kept _ _ _ 1).
  - intros n Hrc. rewrite Hpre. unfold semver.bump_prerelease. rewrite Hparse, Hrc.
    assert (Hor : semver.or_else (Some (rc n)) (semver.or_else (Some "rc") "rc" +:+ ".0") = rc n).
    { rewrite rc_eq. reflexivity. }
    rewrite Hor, increment_rc, bind_lift_some. apply label_kept.
Qed.

Lemma bump_and_label_spec_witness :
  bump_and_label (with_release "patch") "1.2.0" Scenario.fine = (Ok "1.2.1-rc.1", Scenario.fine)
  /\ bump_and_label (with_release "prerelease") "1.2.0-rc.0" Scenario.fine
     = (Ok "1.2.0-rc.1", Scenario.fine).
Proof.
  split.
  - destruct (bump_and_label_spec (with_release "patch") "1.2.0"
                (semver.mkVersion 1 2 0 None None) Scenario.fine eq_refl)
      as (_ & _ & _ & H & _).
    exact (H eq_refl).
  - destruct (bump_and_label_spec (with_release "prerelease") "1.2.0-rc.0"
                (semver.mkVersion 1 2 0 (Some "rc.0") None) Scenario.fine eq_refl)
      as (_ & _ & _ & _ & _ & H).
    exact (H eq_refl 0%N eq_refl).
Defined.

(** ** The rollback, in general *)

Lemma resolve_origin g name : git.resolve g ("origin/" +:+ name) = g_tracking g !! name.
Proof.
  unfold git.resolve.
  change ("origin/" +:+ name)
    with (String "o" (String "r" (String "i" (String "g" (String "i" (String "n"
           (String "/" name))))))).
  assert (Hp : String.prefix "origin/"
                 (String "o" (String "r" (String "i" (String "g" (String "i" (String "n"
                    (String "/" name))))))) = true) by (destruct name; reflexivity).
  rewrite Hp. unfold Py.drop. simpl. rewrite Nat.sub_0_r, substring_all. reflexivity.
Qed.

(** [git rev-parse] prints the commit followed by a line feed, and that
    is what [_subprocess] returns. *)
Lemma rev_parse_output rev w out w' :
  _subprocess ["git"; "rev-parse"; rev] w = (Ok out, w') ->
  exists c, git.resolve (w_git w) rev = Some c /\ out = c +:+ nl.
Proof.
  unfold _subprocess, bind, print, subprocess_run. rewrite decode_rev_parse. simpl.
  destruct (git.resolve (w_git w) rev) as [c|]; simpl; [|discriminate].
  destruct (Py.truthy (c +:+ nl)); simpl; intros [= <- _]; eauto.
Qed.

(** No remote-tracking ref has a line feed in its name, so the rollback,
    which is given the output of [git rev-parse] as the source branch,
    stops at its [git checkout] and pushes nothing. *)
Lemma rollback_stops_at_checkout token repo old_commit dst w :
  (forall name, is_Some (g_tracking (w_git w) !! name) -> absent lf name = true) ->
  fst (commit token repo (old_commit +:+ nl) dst w)
  = Raise (CalledProcessError (rollback_checkout old_commit)) /\
  w_hub (snd (commit token repo (old_commit +:+ nl) dst w)) = w_hub w /\
  mutations (w_log (snd (commit token repo (old_commit +:+ nl) dst w))) = mutations (w_log w).
Proof.
  intros Hrefs.
  assert (Hnone : g_tracking (w_git w) !! (old_commit +:+ nl) = None).
  { destruct (g_tracking (w_git w) !! (old_commit +:+ nl)) eqn:Hl; [|reflexivity].
    specialize (Hrefs _ (ex_intro _ _ Hl)).
    rewrite absent_app in Hrefs. apply andb_true_iff in Hrefs as [_ Hlf]. discriminate Hlf. }
  unfold commit, _subprocess, bind, print, subprocess_run.
  rewrite decode_set_url. simpl.
  rewrite resolve_origin. simpl. rewrite Hnone. simpl.
  repeat split.
  unfold mutations. rewrite !List.filter_app. simpl. rewrite !app_nil_r. reflexivity.
Qed.

(** Whenever the promotion has succeeded and the service answers the
    POST with an error status, the run ends with the [CalledProcessError]
    of the rollback's [git checkout], and the remote branches are those
    the promotion left. *)
Lemma publication_failure_keeps_promotion args p w v w1 old w2 w3 status :
  dry_run args = false ->
  update_version args (repo_name p) (src_branch p) (dst_branch p) w = (Ok v, w1) ->
  _subprocess ["git"; "rev-parse"; "origin/" +:+ dst_branch p] w1 = (Ok old, w2) ->
  commit (token p) (repo_name p) (src_branch p) (dst_branch p) w2 = (Ok tt, w3) ->
  h_post_status (w_hub w3) = Some status ->
  (400 <= status < 600)%N ->
  (forall name, is_Some (g_tracking (w_git w3) !! name) -> absent lf name = true) ->
  exists c,
    old = c +:+ nl /\
    fst (promote_and_publish args p w) = Raise (CalledProcessError (rollback_checkout c)) /\
    h_branches (w_hub (snd (promote_and_publish args p w))) = h_branches (w_hub w3).
Proof.
  intros Hdry Hver Hrev Hcommit Hpost [Hlo Hhi] Hrefs.
  destruct (rev_parse_output _ _ _ _ Hrev) as (c & _ & ->).
  exists c. split; [reflexivity|].
  assert (Hrun : exists wf,
             promote_and_publish args p w
             = (Raise (CalledProcessError (rollback_checkout c)), wf)
             /\ w_hub wf = w_hub w3).
  { unfold promote_and_publish. unfold bind at 1. rewrite Hver, Hdry. cbn [negb]. cbv beta iota.
    unfold bind at 1. rewrite Hrev. cbv beta iota.
    unfold bind at 1. rewrite Hcommit. cbv beta iota zeta.
    unfold bind at 1, requests_post. cbn [w_hub log set_log]. rewrite Hpost.
    assert (H2 : is_2xx status = false).
    { unfold is_2xx. apply andb_false_iff. right. apply N.ltb_ge. lia. }
    assert (H4 : ((400 <=? status) && (status <? 600))%N = true).
    { apply andb_true_iff. split; [apply N.leb_le | apply N.ltb_lt]; lia. }
    rewrite H2. unfold raise_for_status. rewrite H4.
    unfold try_except_HTTPError, raise at 1. unfold bind at 1, print at 1.
    unfold bind at 1, print at 1. unfold bind at 1.
    match goal with
    | |- context [commit ?t ?r (c +:+ nl) ?d ?w'] =>
        destruct (rollback_stops_at_checkout t r c d w') as (Hr & Hh & _);
          [exact Hrefs|];
          destruct (commit t r (c +:+ nl) d w') as [[[]|e] wf]; simpl in Hr, Hh;
            [discriminate Hr|]
    end.
    injection Hr as ->. exists wf. split; [reflexivity | exact Hh]. }
  destruct Hrun as (wf & -> & Hh). simpl. rewrite Hh. auto.
Qed.

(** * Further properties of the script *)

(** ** Promotion of a branch: [commit] *)

(** The three ways [commit] ends.  The remote URL is rewritten first, in
    all of them. *)
Lemma commit_cases token repo src dst w :
  let r := commit token repo src dst w in
  g_url (w_git (snd r)) = token_url token repo /\
  g_commits (w_git (snd r)) = g_commits (w_git w) /\
  match g_tracking (w_git w) !! src with
  | None =>
      fst r = Raise (CalledProcessError
                       ["git"; "-c"; "advice.detachedHead=false"; "checkout"; "origin/" +:+ src])
      /\ w_hub (snd r) = w_hub w
      /\ g_heads (w_git (snd r)) = g_heads (w_git w)
      /\ g_head (w_git (snd r)) = g_head (w_git w)
      /\ g_tracking (w_git (snd r)) = g_tracking (w_git w)
  | Some c =>
      g_heads (w_git (snd r)) = <[dst := c]> (g_heads (w_git w))
      /\ g_head (w_git (snd r)) = OnBranch dst
      /\ if h_accepts_push (w_hub w)
         then fst r = Ok tt
              /\ w_hub (snd r) = set_branches (<[dst := c]> (h_branches (w_hub w))) (w_hub w)
              /\ g_tracking (w_git (snd r)) = <[dst := c]> (g_tracking (w_git w))
         else fst r = Raise (CalledProcessError ["git"; "push"; "--force"; "origin"; dst])
              /\ w_hub (snd r) = w_hub w
              /\ g_tracking (w_git (snd r)) = g_tracking (w_git w)
  end.
Proof.
  unfold commit, _subprocess, bind, print, subprocess_run.
  rewrite decode_set_url. simpl. rewrite resolve_origin. simpl.
  destruct (g_tracking (w_git w) !! src) as [c|] eqn:Hsrc; simpl.
  - rewrite lookup_insert_eq. simpl.
    destruct (h_accepts_push (w_hub w)); simpl; repeat split.
  - repeat split.
Qed.



(** X2.  When the server rejects the push, [commit] raises the
    [CalledProcessError] of [git push] and the hosting service is as it
    was, but the local repository is not: the local branch [dst] has been
    reset to the source commit, [HEAD] is on it, and the remote URL holds
    the token. *)
Theorem commit_rejected_push token repo src dst c w :
  g_tracking (w_git w) !! src = Some c ->
  h_accepts_push (w_hub w) = false ->
  let r := commit token repo src dst w in
  fst r = Raise (CalledProcessError ["git"; "push"; "--force"; "origin"; dst]) /\
  w_hub (snd r) = w_hub w /\
  g_tracking (w_git (snd r)) = g_tracking (w_git w) /\
  g_heads (w_git (snd r)) !! dst = Some c /\
  g_head (w_git (snd r)) = OnBranch dst /\
  g_url (w_git (snd r)) = token_url token repo.
Proof.
  intros Hsrc Hpush. pose proof (commit_cases token repo src dst w) as H.
  simpl in *. rewrite Hsrc, Hpush in H.
  destruct H as (Hurl & _ & Hheads & Hhead & Hr & Hhub & Htrack).
  rewrite Hheads. repeat split; try apply lookup_insert_eq; assumption.
Qed.


Lemma commit_rejected_push_witness :
  fst (commit "t0k3n" "acme/app" "integration" "staging" (answering false (Some 201%N)))
  = Raise (CalledProcessError ["git"; "push"; "--force"; "origin"; "staging"])
  /\ w_hub (snd (commit "t0k3n" "acme/app" "integration" "staging"
                   (answering false (Some 201%N))))
     = w_hub (answering false (Some 201%N)).
Proof.
  destruct (commit_rejected_push "t0k3n" "acme/app" "integration" "staging" "b2b2b2b2b2"
              (answering false (Some 201%N))
              ltac:(vm_compute; reflexivity) eq_refl) as (H1 & H2 & _).
  split; assumption.
Defined.


(** ** Publication *)

(** Once the version is computed, the old commit read and the branch
    promoted, what is left of the run is the POST and what follows its
    answer. *)
Lemma publication_step args p w v w1 old w2 w3 :
  dry_run args = false ->
  update_version args (repo_name p) (src_branch p) (dst_branch p) w = (Ok v, w1) ->
  _subprocess ["git"; "rev-parse"; "origin/" +:+ dst_branch p] w1 = (Ok old, w2) ->
  commit (token p) (repo_name p) (src_branch p) (dst_branch p) w2 = (Ok tt, w3) ->
  promote_and_publish args p w =
  match h_post_status (w_hub w3) with
  | Some status =>
      try_except_HTTPError (raise_for_status status)
        (fun status =>
           print ("ERROR: Failed to create release!  Changes were:" +:+ nl +:+ notes p) >>
           print "Rolling back changes:" >>
           commit (token p) (repo_name p) old (dst_branch p) >>
           raise (HTTPError status))
        (if is_2xx status
         then set_hub (set_drafts (h_drafts (w_hub w3) ++ [release_body p v]) (w_hub w3))
                (log (release_post p v) w3)
         else log (release_post p v) w3)
  | None => (Raise ConnectionError, log (release_post p v) w3)
  end.
Proof.
  intros Hdry Hver Hrev Hcommit.
  unfold promote_and_publish. unfold bind at 1. rewrite Hver, Hdry. cbn [negb]. cbv beta iota.
  unfold bind at 1. rewrite Hrev. cbv beta iota.
  unfold bind at 1. rewrite Hcommit. cbv beta iota zeta.
  unfold bind at 1, requests_post. cbn [w_hub log set_log].
  destruct (h_post_status (w_hub w3)); reflexivity.
Qed.

(** X4.  When the service answers the POST with a 2xx status, the run
    ends normally and one draft has been added: it is tagged with the new
    version, named after the destination branch and the version, marked
    as a draft, targets the destination branch, carries the release notes
    and the prerelease flag of the stage.  The remote branches stay as
    the promotion left them. *)
Theorem publication_creates_draft args p w v w1 old w2 w3 status :
  dry_run args = false ->
  update_version args (repo_name p) (src_branch p) (dst_branch p) w = (Ok v, w1) ->
  _subprocess ["git"; "rev-parse"; "origin/" +:+ dst_branch p] w1 = (Ok old, w2) ->
  commit (token p) (repo_name p) (src_branch p) (dst_branch p) w2 = (Ok tt, w3) ->
  h_post_status (w_hub w3) = Some status ->
  (200 <= status < 300)%N ->
  let final := promote_and_publish args p w in
  fst final = Ok tt /\
  h_drafts (w_hub (snd final))
  = h_drafts (w_hub w3)
    ++ [mkBody v (dst_branch p +:+ " " +:+ v) (mark_prerelease p) true (dst_branch p) (notes p)] /\
  h_branches (w_hub (snd final)) = h_branches (w_hub w3) /\
  w_git (snd final) = w_git w3.
Proof.
  intros Hdry Hver Hrev Hcommit Hpost [Hlo Hhi]. simpl.
  rewrite (publication_step args p w v w1 old w2 w3 Hdry Hver Hrev Hcommit), Hpost.
  assert (H2 : is_2xx status = true).
  { unfold is_2xx. apply andb_true_iff. split; [apply N.leb_le | apply N.ltb_lt]; lia. }
  assert (H4 : ((400 <=? status) && (status <? 600))%N = false).
  { apply andb_false_iff. left. apply N.leb_gt. lia. }
  rewrite H2. unfold try_except_HTTPError, raise_for_status. rewrite H4. simpl.
  repeat split.
Qed.

(** X5.  When the service cannot be reached for the POST, the
    [ConnectionError] is not caught: no rollback is attempted, the run
    ends with it right after the request, and the destination branch
    stays promoted. *)
Theorem publication_unreachable_no_rollback args p w v w1 old w2 w3 :
  dry_run args = false ->
  update_version args (repo_name p) (src_branch p) (dst_branch p) w = (Ok v, w1) ->
  _subprocess ["git"; "rev-parse"; "origin/" +:+ dst_branch p] w1 = (Ok old, w2) ->
  commit (token p) (repo_name p) (src_branch p) (dst_branch p) w2 = (Ok tt, w3) ->
  h_post_status (w_hub w3) = None ->
  promote_and_publish args p w
  = (Raise ConnectionError,
     log (EvPost (releases_url (repo_name p)) ("token " +:+ token p)
            (mkBody v (dst_branch p +:+ " " +:+ v) (mark_prerelease p) true (dst_branch p)
               (notes p))) w3).
Proof.
  intros Hdry Hver Hrev Hcommit Hpost.
  rewrite (publication_step args p w v w1 old w2 w3 Hdry Hver Hrev Hcommit), Hpost.
  reflexivity.
Qed.

(** X6.  [raise_for_status] raises for the statuses 400 to 599 only: an
    answer with any other status that is not 2xx, a 304 for one, ends the
    run normally, with the branch promoted, no draft and no rollback. *)
Theorem publication_other_status args p w v w1 old w2 w3 status :
  dry_run args = false ->
  update_version args (repo_name p) (src_branch p) (dst_branch p) w = (Ok v, w1) ->
  _subprocess ["git"; "rev-parse"; "origin/" +:+ dst_branch p] w1 = (Ok old, w2) ->
  commit (token p) (repo_name p) (src_branch p) (dst_branch p) w2 = (Ok tt, w3) ->
  h_post_status (w_hub w3) = Some status ->
  (status < 200 \/ 300 <= status < 400 \/ 600 <= status)%N ->
  promote_and_publish args p w
  = (Ok tt,
     log (EvPost (releases_url (repo_name p)) ("token " +:+ token p)
            (mkBody v (dst_branch p +:+ " " +:+ v) (mark_prerelease p) true (dst_branch p)
               (notes p))) w3).
Proof.
  intros Hdry Hver Hrev Hcommit Hpost Hst.
  rewrite (publication_step args p w v w1 old w2 w3 Hdry Hver Hrev Hcommit), Hpost.
  assert (H2 : is_2xx status = false).
  { unfold is_2xx. apply andb_false_iff.
    destruct Hst as [H|[H|H]]; [left; apply N.leb_gt | right; apply N.ltb_ge
                               | right; apply N.ltb_ge]; lia. }
  assert (H4 : ((400 <=? status) && (status <? 600))%N = false).
  { apply andb_false_iff.
    destruct Hst as [H|[H|H]]; [left; apply N.leb_gt | left; apply N.leb_gt
                               | right; apply N.ltb_ge]; lia. }
  rewrite H2. unfold try_except_HTTPError, raise_for_status. rewrite H4. reflexivity.
Qed.

(** The run of [promote_and_publish] on [answering true status], step by
    step. *)
Lemma staging_run_steps status :
  let w := answering true status in
  let w1 := snd (update_version staging_args "acme/app" "integration" "staging" w) in
  let w2 := snd (_subprocess ["git"; "rev-parse"; "origin/staging"] w1) in
  let w3 := snd (commit "t0k3n" "acme/app" "integration" "staging" w2) in
  update_version staging_args "acme/app" "integration" "staging" w = (Ok "0.1.0-rc.1", w1) /\
  _subprocess ["git"; "rev-parse"; "origin/staging"] w1 = (Ok ("c3c3c3c3c3" +:+ nl), w2) /\
  commit "t0k3n" "acme/app" "integration" "staging" w2 = (Ok tt, w3) /\
  h_post_status (w_hub w3) = status.
Proof. destruct status; vm_compute; repeat split. Defined.

Lemma publication_creates_draft_witness :
  fst (promote_and_publish staging_args prepared_staging (answering true (Some 201%N))) = Ok tt
  /\ map rb_tag_name
       (h_drafts (w_hub (snd (promote_and_publish staging_args prepared_staging
                                (answering true (Some 201%N))))))
     = ["0.1.0-rc.1"].
Proof.
  pose proof (staging_run_steps (Some 201%N)) as H. cbv zeta in H.
  destruct H as (H1 & H2 & H3 & H4).
  destruct (publication_creates_draft staging_args prepared_staging _ _ _ _ _ _ 201%N
              eq_refl H1 H2 H3 H4 ltac:(lia)) as (Hr & Hd & _).
  split; [exact Hr|]. rewrite Hd. reflexivity.
Defined.

Lemma publication_unreachable_no_rollback_witness :
  fst (promote_and_publish staging_args prepared_staging (answering true None))
  = Raise ConnectionError
  /\ h_branches (w_hub (snd (promote_and_publish staging_args prepared_staging
                               (answering true None)))) !! "staging"
     = Some "b2b2b2b2b2".
Proof.
  pose proof (staging_run_steps None) as H. cbv zeta in H.
  destruct H as (H1 & H2 & H3 & H4).
  rewrite (publication_unreachable_no_rollback staging_args prepared_staging _ _ _ _ _ _
             eq_refl H1 H2 H3 H4).
  split; reflexivity.
Defined.

Lemma publication_other_status_witness :
  fst (promote_and_publish staging_args prepared_staging (answering true (Some 304%N))) = Ok tt
  /\ h_drafts (w_hub (snd (promote_and_publish staging_args prepared_staging
                             (answering true (Some 304%N))))) = [].
Proof.
  pose proof (staging_run_steps (Some 304%N)) as H. cbv zeta in H.
  destruct H as (H1 & H2 & H3 & H4).
  rewrite (publication_other_status staging_args prepared_staging _ _ _ _ _ _ 304%N
             eq_refl H1 H2 H3 H4 ltac:(lia)).
  split; reflexivity.
Defined.

(** ** The token *)

Lemma resolve_token_world w : snd (resolve_token w) = w.
Proof.
  unfold resolve_token, bind, getenv, expanduser, read_file, get_secret_value, lift, ret, raise.
  repeat (case_match; simpl in *; simplify_eq; auto).
Qed.




(** ** The current version, further *)

(** X8.  For a stage that is neither [staging] nor [prod] the current
    version is 0.0.0 whatever the releases are: their tags are not even
    parsed. *)
Theorem current_version_other_stage args repo s w :
  h_listing (w_hub w) = true ->
  s <> EmptyString -> s <> "staging" -> s <> "prod" ->
  get_current_version args repo (Some s) w = (Ok "0.0.0", log (EvGet (releases_url repo)) w).
Proof.
  intros Hl Hne Hs Hp. rewrite (get_current_version_eq args repo (Some s) w Hl).
  assert (Hst : effective_stage args (Some s) = s).
  { unfold effective_stage. simpl. rewrite (truthy_nonempty s Hne). reflexivity. }
  rewrite Hst.
  apply String.eqb_neq in Hs. apply String.eqb_neq in Hp.
  rewrite Hs, Hp, !andb_false_r. reflexivity.
Qed.

Lemma current_version_other_stage_witness :
  get_current_version staging_args "acme/app" (Some "integration")
    (Scenario.tagged ["3.1.4"; "not a version"])
  = (Ok "0.0.0", log (EvGet (releases_url "acme/app"))
                   (Scenario.tagged ["3.1.4"; "not a version"])).
Proof.
  apply current_version_other_stage; [reflexivity | discriminate ..].
Defined.

(** *** A parsed version prints back as the tag *)

Lemma cut_spec c s l r :
  semver.cut c s = (l, r) ->
  s = match r with Some r' => l +:+ String c r' | None => l end.
Proof.
  revert l r. induction s as [|a s IH]; simpl; intros l r.
  - intros [= <- <-]. reflexivity.
  - destruct (Ascii.eqb_spec a c) as [->|Hne].
    + intros [= <- <-]. reflexivity.
    + destruct (semver.cut c s) as [l' r'] eqn:Hcut. intros [= <- <-].
      rewrite (IH l' r' eq_refl). destruct r'; reflexivity.
Qed.

Lemma split_nonempty sep s : Py.split sep s <> [].
Proof.
  destruct s as [|c s]; simpl; [discriminate|].
  destruct (Ascii.eqb c sep); [discriminate|].
  destruct (Py.split sep s); discriminate.
Qed.

Lemma concat_split sep s : String.concat (String sep EmptyString) (Py.split sep s) = s.
Proof.
  induction s as [|c s IH]; [reflexivity|]. simpl.
  pose proof (split_nonempty sep s) as Hne.
  destruct (Ascii.eqb_spec c sep) as [->|Hc].
  - destruct (Py.split sep s) as [|x xs]; [contradiction|].
    change (String.concat (String sep EmptyString) (EmptyString :: x :: xs))
      with (String sep (String.concat (String sep EmptyString) (x :: xs))).
    rewrite IH. reflexivity.
  - destruct (Py.split sep s) as [|x xs]; [contradiction|].
    destruct xs as [|y ys].
    + simpl in *. rewrite IH. reflexivity.
    + change (String.concat (String sep EmptyString) (String c x :: y :: ys))
        with (String c (String.concat (String sep EmptyString) (x :: y :: ys))).
      rewrite IH. reflexivity.
Qed.

Lemma numeric_prints_back a n :
  semver.is_numeric_id a = true -> Py.int_of_str a = Some n -> Py.str_of_int n = a.
Proof.
  intros Hnum Hint. unfold Py.int_of_str in Hint.
  destruct (NilZero.uint_of_string a) as [d|] eqn:Hd; [|discriminate].
  injection Hint as <-. unfold Py.str_of_int. rewrite DecimalN.Unsigned.to_of.
  assert (Hnorm : Decimal.unorm d = d).
  { destruct a as [|c r]; [discriminate|]. simpl in Hd.
    destruct (NilEmpty.uint_of_string r) as [d'|] eqn:Hr; [|discriminate].
    pose proof (DecimalString.uint_of_char_spec c d' d Hd) as Hc.
    simpl in Hnum.
    destruct Hc as [[-> ->]|Hc].
    - simpl in Hnum. destruct r; [|discriminate]. simpl in Hr. injection Hr as <-. reflexivity.
    - repeat (destruct Hc as [[-> ->]|Hc]; [reflexivity|]).
      destruct Hc as [-> ->]. reflexivity. }
  rewrite Hnorm. apply NilZero.sus. exact Hd.
Qed.

Lemma parse_prints_back s v :
  semver.parse_version_info s = Some v -> semver.str v = semver.chomp s.
Proof.
  unfold semver.parse_version_info.
  destruct (semver.cut "+" (semver.chomp s)) as [rest bld] eqn:Hplus.
  destruct (semver.cut "-" rest) as [core_ pre] eqn:Hminus.
  pose proof (concat_split "." core_) as Hcore.
  destruct (Py.split "." core_) as [|a [|b [|c [|]]]]; try discriminate.
  destruct (semver.is_numeric_id a) eqn:Ha; [|discriminate].
  destruct (semver.is_numeric_id b) eqn:Hb; [|discriminate].
  destruct (semver.is_numeric_id c) eqn:Hc; [|discriminate].
  simpl. destruct (_ && _); [|discriminate].
  destruct (Py.int_of_str a) as [ma|] eqn:Hma; [|discriminate].
  destruct (Py.int_of_str b) as [mi|] eqn:Hmi; [|discriminate].
  destruct (Py.int_of_str c) as [pa|] eqn:Hpa; [|discriminate].
  intros [= <-]. unfold semver.str, semver.format_version. cbn [semver.major semver.minor
    semver.patch semver.prerelease semver.build].
  rewrite (numeric_prints_back a ma Ha Hma), (numeric_prints_back b mi Hb Hmi),
    (numeric_prints_back c pa Hc Hpa).
  change (a +:+ "." +:+ b +:+ "." +:+ c)
    with (String.concat "." [a; b; c]).
  rewrite Hcore. rewrite (cut_spec _ _ _ _ Hplus), (cut_spec _ _ _ _ Hminus).
  destruct pre, bld; reflexivity.
Qed.

(** The versions of the comprehension come from tags of the listing. *)
Lemma versions_where_from keep (releases : list string) vs v :
  versions_where keep releases = Some vs -> In v vs ->
  exists tag, In tag releases /\ semver.parse_version_info tag = Some v.
Proof.
  revert vs. induction releases as [|t rest IH]; simpl; intros vs.
  - intros [= <-] [].
  - destruct (semver.parse_version_info t) as [x|] eqn:Ht; [|discriminate].
    destruct (versions_where keep rest) as [vs'|]; [|discriminate].
    intros [= <-] Hin.
    destruct (keep x).
    + destruct Hin as [<-|Hin]; [eauto|].
      destruct (IH vs' eq_refl Hin) as (tag & ? & ?). eauto.
    + destruct (IH vs' eq_refl Hin) as (tag & ? & ?). eauto.
Qed.

(** X9.  For the stages [staging] and [prod], the version
    [get_current_version] returns when there are releases is the tag of
    one of them, character for character (a tag does not end with a line
    feed): versions are never normalised or rebuilt. *)
Theorem current_version_is_a_tag args repo s w r w' :
  get_current_version args repo (Some s) w = (Ok r, w') ->
  s = "staging" \/ s = "prod" ->
  h_releases (w_hub w) <> [] ->
  (forall tag, In tag (h_releases (w_hub w)) -> semver.chomp tag = tag) ->
  In r (h_releases (w_hub w)).
Proof.
  intros Hrun Hs Hne Htags.
  assert (Hl : h_listing (w_hub w) = true).
  { unfold get_current_version, bind, requests_get in Hrun. simpl in Hrun.
    destruct (h_listing (w_hub w)); [reflexivity | discriminate]. }
  rewrite (get_current_version_eq args repo (Some s) w Hl) in Hrun.
  assert (Hn : nonempty (h_releases (w_hub w)) = true)
    by (destruct (h_releases (w_hub w)); [contradiction | reflexivity]).
  assert (Hst : effective_stage args (Some s) = s)
    by (unfold effective_stage; destruct Hs as [-> | ->]; reflexivity).
  rewrite Hn, Hst in Hrun.
  assert (Hfrom : forall keep vs,
             versions_where keep (h_releases (w_hub w)) = Some vs ->
             match semver.max vs with
             | Some greatest => Ok (semver.str greatest)
             | None => Raise ValueError
             end = Ok r -> In r (h_releases (w_hub w))).
  { intros keep vs Hvs Hmax. destruct vs as [|v rest]; [discriminate|].
    simpl in Hmax. injection Hmax as <-.
    assert (Hin : In (semver.max_from v rest) (v :: rest)).
    { destruct (max_from_In v rest) as [->|H]; [left; reflexivity | right; exact H]. }
    destruct (versions_where_from keep _ _ _ Hvs Hin) as (tag & Htag & Hparse).
    rewrite (parse_prints_back tag _ Hparse), (Htags tag Htag). exact Htag. }
  destruct Hs as [-> | ->]; simpl in Hrun.
  - destruct (versions_where is_rc _) as [vs|] eqn:Hvs; [|discriminate].
    injection Hrun as Hr _. exact (Hfrom is_rc vs Hvs Hr).
  - destruct (versions_where is_final _) as [vs|] eqn:Hvs; [|discriminate].
    injection Hrun as Hr _. exact (Hfrom is_final vs Hvs Hr).
Qed.

Lemma current_version_is_a_tag_witness :
  In "1.1.0-rc.1" ["1.0.0"; "1.1.0-rc.0"; "1.1.0-rc.1"].
Proof.
  apply (current_version_is_a_tag staging_args "acme/app" "staging"
           (Scenario.tagged ["1.0.0"; "1.1.0-rc.0"; "1.1.0-rc.1"]) "1.1.0-rc.1"
           (snd (get_current_version staging_args "acme/app" (Some "staging")
                   (Scenario.tagged ["1.0.0"; "1.1.0-rc.0"; "1.1.0-rc.1"])))).
  - vm_compute. reflexivity.
  - left. reflexivity.
  - discriminate.
  - intros tag [<-|[<-|[<-|[]]]]; reflexivity.
Defined.

(** ** The next version, further *)

Lemma split_key_rc n : semver.split_key (rc n) = [semver.PStr "rc"; semver.PInt n].
Proof.
  unfold semver.split_key. rewrite rc_eq.
  change (Py.split "." (String "r" (String "c" (String "." (Py.str_of_int n)))))
    with ("rc" :: Py.split "." (Py.str_of_int n)).
  rewrite split_absent by auto using digits_absent, str_of_int_digits.
  simpl. unfold semver.convert.
  rewrite str_of_int_nonempty, str_of_int_digits, int_of_str_of_int. reflexivity.
Qed.

Lemma or_else_rc n d : semver.or_else (Some (rc n)) d = rc n.
Proof. rewrite rc_eq. reflexivity. Qed.

Lemma truthy_rc n : Py.truthy_opt (Some (rc n)) = true.
Proof. rewrite rc_eq. reflexivity. Qed.

Lemma string_compare_refl s : String.compare s s = Eq.
Proof.
  induction s as [|c s IH]; [reflexivity|]. simpl.
  unfold Ascii.compare. rewrite N.compare_refl. exact IH.
Qed.

Lemma cmp_parts_refl a : semver.cmp_parts Eq a a = Eq.
Proof.
  induction a as [|x a IH]; [reflexivity|]. simpl.
  assert (Hx : semver.cmp_prerelease_tag x x = Eq).
  { destruct x; simpl; [apply N.compare_refl | apply string_compare_refl]. }
  rewrite Hx. exact IH.
Qed.

(** No version is greater than itself. *)
Lemma gt_irrefl v : semver.gt v v = false.
Proof.
  unfold semver.gt, semver.compare, semver._nat_cmp.
  rewrite !N.compare_refl, Nat.compare_refl, cmp_parts_refl. reflexivity.
Qed.

(** A candidate with the next number is greater. *)
Lemma gt_next_rc ma mi pa n bld bld' :
  semver.gt (semver.mkVersion ma mi pa (Some (rc (n + 1))) bld)
            (semver.mkVersion ma mi pa (Some (rc n)) bld') = true.
Proof.
  unfold semver.gt, semver.compare. simpl. rewrite !N.compare_refl.
  unfold semver._nat_cmp. rewrite !or_else_rc, !split_key_rc. simpl.
  assert (Hgt : (n + 1 ?= n)%N = Gt) by (apply N.compare_gt_iff; lia).
  rewrite Hgt. reflexivity.
Qed.

(** X10.  A major, minor or patch bump of the current version, and a
    prerelease bump of a version labelled [rc.n], yield a version that is
    strictly greater than the current one in the ordering of the
    versions: [bump_and_label] never returns the version it was given. *)
Theorem bump_increases (args : cmd_args) (cur : string) (v : semver.VersionInfo) (w : World) :
  semver.parse_version_info cur = Some v ->
  release args = "major" \/ release args = "minor" \/ release args = "patch" \/
  (release args = "prerelease" /\ exists n, semver.prerelease v = Some (rc n)) ->
  exists new v',
    bump_and_label args cur w = (Ok new, w) /\
    semver.parse_version_info new = Some v' /\
    semver.gt v' v = true /\
    new <> cur.
Proof.
  intros Hparse Hkind.
  destruct (bump_kind cur) as (Hmajor & Hminor & Hpatch & Hpre).
  assert (Hdone : forall v',
             bump_and_label args cur w = (Ok (semver.str v'), w) ->
             semver.parse_version_info (semver.str v') = Some v' ->
             semver.gt v' v = true ->
             exists new v'',
               bump_and_label args cur w = (Ok new, w) /\
               semver.parse_version_info new = Some v'' /\
               semver.gt v'' v = true /\ new <> cur).
  { intros v' Hrun Hback Hgt. exists (semver.str v'), v'. repeat split; auto.
    intros Heq. rewrite Heq, Hparse in Hback. injection Hback as ->.
    rewrite gt_irrefl in Hgt. discriminate. }
  unfold bump_and_label in *.
  destruct Hkind as [Hk|[Hk|[Hk|[Hk (n & Hrc)]]]]; rewrite Hk in *.
  - apply (Hdone (semver.mkVersion (semver.major v + 1) 0 0 (Some (rc 1)) None)).
    + rewrite Hmajor. unfold semver.bump_major. rewrite Hparse, bind_lift_some.
      apply label_attached.
    + apply (parse_format _ _ _ (Some (rc 1)) (label_ok_rc 1)).
    + unfold semver.gt, semver.compare. simpl.
      assert (Hgt : (semver.major v + 1 ?= semver.major v)%N = Gt)
        by (apply N.compare_gt_iff; lia).
      rewrite Hgt. reflexivity.
  - apply (Hdone (semver.mkVersion (semver.major v) (semver.minor v + 1) 0 (Some (rc 1)) None)).
    + rewrite Hminor. unfold semver.bump_minor. rewrite Hparse, bind_lift_some.
      apply label_attached.
    + apply (parse_format _ _ _ (Some (rc 1)) (label_ok_rc 1)).
    + unfold semver.gt, semver.compare. simpl. rewrite N.compare_refl.
      assert (Hgt : (semver.minor v + 1 ?= semver.minor v)%N = Gt)
        by (apply N.compare_gt_iff; lia).
      rewrite Hgt. reflexivity.
  - apply (Hdone (semver.mkVersion (semver.major v) (semver.minor v) (semver.patch v + 1)
                    (Some (rc 1)) None)).
    + rewrite Hpatch. unfold semver.bump_patch. rewrite Hparse, bind_lift_some.
      apply label_attached.
    + apply (parse_format _ _ _ (Some (rc 1)) (label_ok_rc 1)).
    + unfold semver.gt, semver.compare. simpl. rewrite !N.compare_refl.
      assert (Hgt : (semver.patch v + 1 ?= semver.patch v)%N = Gt)
        by (apply N.compare_gt_iff; lia).
      rewrite Hgt. reflexivity.
  - apply (Hdone (semver.mkVersion (semver.major v) (semver.minor v) (semver.patch v)
                    (Some (rc (n + 1))) None)).
    + rewrite Hpre. unfold semver.bump_prerelease. rewrite Hparse, Hrc.
      rewrite or_else_rc, increment_rc, bind_lift_some. apply label_kept.
    + apply (parse_format _ _ _ (Some (rc (n + 1))) (label_ok_rc (n + 1))).
    + destruct v as [ma mi pa pre bld]. simpl in *. subst pre. apply gt_next_rc.
Qed.

Lemma bump_increases_witness :
  exists new v',
    bump_and_label (with_release "patch") "1.2.0-rc.4" Scenario.fine = (Ok new, Scenario.fine) /\
    semver.parse_version_info new = Some v' /\
    semver.gt v' (semver.mkVersion 1 2 0 (Some "rc.4") None) = true /\
    new <> "1.2.0-rc.4".
Proof.
  apply (bump_increases (with_release "patch") "1.2.0-rc.4"
           (semver.mkVersion 1 2 0 (Some "rc.4") None) Scenario.fine eq_refl).
  right. right. left. reflexivity.
Defined.

(** X11.  A prerelease bump of a version without prerelease label, the
    0.0.0 of a repository without releases for one, gives it the label
    [rc.1], and the result is lower than the version it comes from: in
    the ordering of the versions a candidate precedes the final
    version. *)
Theorem prerelease_bump_of_final_decreases (args : cmd_args) (cur : string)
    (v : semver.VersionInfo) (w : World) :
  semver.parse_version_info cur = Some v ->
  semver.prerelease v = None ->
  release args = "prerelease" ->
  let v' := semver.mkVersion (semver.major v) (semver.minor v) (semver.patch v)
              (Some "rc.1") None in
  bump_and_label args cur w = (Ok (semver.str v'), w) /\
  semver.parse_version_info (semver.str v') = Some v' /\
  semver.gt v v' = true /\
  semver.gt v' v = false.
Proof.
  intros Hparse Hnone Hkind. simpl.
  destruct (bump_kind cur) as (_ & _ & _ & Hpre).
  split; [|split].
  - unfold bump_and_label. rewrite Hkind, Hpre.
    unfold semver.bump_prerelease. rewrite Hparse, Hnone, bind_lift_some.
    apply (label_kept _ _ _ 1).
  - apply (parse_format _ _ _ (Some (rc 1)) (label_ok_rc 1)).
  - unfold semver.gt, semver.compare. simpl. rewrite Hnone, !N.compare_refl. simpl.
    split; reflexivity.
Qed.

Lemma prerelease_bump_of_final_decreases_witness :
  bump_and_label staging_args "0.0.0" Scenario.fine = (Ok "0.0.0-rc.1", Scenario.fine)
  /\ semver.gt (semver.mkVersion 0 0 0 None None)
               (semver.mkVersion 0 0 0 (Some "rc.1") None) = true.
Proof.
  destruct (prerelease_bump_of_final_decreases staging_args "0.0.0"
              (semver.mkVersion 0 0 0 None None) Scenario.fine eq_refl eq_refl eq_refl)
    as (H1 & _ & H2 & _).
  split; [exact H1 | exact H2].
Defined.

Lemma last_number_no_digit i found s :
  Py.all_chars (fun c => negb (Py.is_digit c)) s = true ->
  semver.last_number_from i None found s = found.
Proof.
  revert i. induction s as [|c s IH]; intros i; simpl; [reflexivity|].
  intros [Hc Hs]%andb_true_iff. apply negb_true_iff in Hc. rewrite Hc. apply IH, Hs.
Qed.

(** X12.  When the current version of the stage carries a prerelease
    label without any digit, [1.2.0-rc] for one, a prerelease bump leaves
    it as it is: [update_version] prints "Nothing to promote" and exits
    with status 0, whatever the branches hold. *)
Theorem label_without_number_never_promotes args repo src dst w w1 cur v pre :
  String.eqb src "prod" = false ->
  release args = "prerelease" ->
  get_current_version args repo (Some (stage args)) w = (Ok cur, w1) ->
  semver.parse_version_info cur = Some v ->
  semver.chomp cur = cur ->
  semver.prerelease v = Some pre ->
  pre <> EmptyString ->
  Py.all_chars (fun c => negb (Py.is_digit c)) pre = true ->
  semver.build v = None ->
  update_version args repo src dst w
  = (Raise (SystemExit 0), log (EvPrint "Nothing to promote") w1).
Proof.
  intros Hsrc Hkind Hcur Hparse Hchomp Hpre Hne Hdigits Hbuild.
  assert (Hsame : semver.bump_prerelease cur "rc" = Some cur).
  { unfold semver.bump_prerelease. rewrite Hparse, Hpre.
    unfold semver.or_else at 1. rewrite (truthy_nonempty pre Hne).
    unfold semver._increment_string, semver.last_number.
    rewrite (last_number_no_digit 0 None pre Hdigits).
    rewrite <- Hchomp. rewrite <- (parse_prints_back cur v Hparse).
    unfold semver.str. rewrite Hpre, Hbuild. reflexivity. }
  assert (Hlabel : bump_and_label args cur w1 = (Ok cur, w1)).
  { destruct (bump_kind cur) as (_ & _ & _ & Hb).
    unfold bump_and_label. rewrite Hkind, Hb, Hsame, bind_lift_some.
    unfold bind. rewrite Hparse. cbn [lift ret]. rewrite Hpre.
    cbn [Py.truthy_opt]. rewrite (truthy_nonempty pre Hne). reflexivity. }
  rewrite (update_version_bump args repo src dst Hsrc).
  unfold bind at 1. rewrite Hcur. cbv beta iota.
  unfold bind at 1. rewrite Hlabel. cbv beta iota.
  rewrite String.eqb_refl. reflexivity.
Qed.

Lemma label_without_number_never_promotes_witness :
  fst (update_version staging_args "acme/app" "integration" "staging"
         (Scenario.tagged ["1.2.0-rc"])) = Raise (SystemExit 0).
Proof.
  rewrite (label_without_number_never_promotes staging_args "acme/app" "integration" "staging"
             (Scenario.tagged ["1.2.0-rc"])
             (snd (get_current_version staging_args "acme/app" (Some "staging")
                     (Scenario.tagged ["1.2.0-rc"])))
             "1.2.0-rc" (semver.mkVersion 1 2 0 (Some "rc") None) "rc");
    try reflexivity.
  discriminate.
Defined.

(** ** The release notes *)

Lemma split_concat (l : list string) :
  l <> [] -> Forall (fun s => absent lf s = true) l ->
  Py.split lf (String.concat nl l) = l.
Proof.
  induction l as [|x l IH]; [congruence|]. intros _ Hall.
  inversion Hall as [|? ? Hx Hl]; subst.
  destruct l as [|y l].
  - simpl. apply split_absent, Hx.
  - change (String.concat nl (x :: y :: l)) with (x +:+ String lf (String.concat nl (y :: l))).
    rewrite (split_app lf x _ Hx), IH; [reflexivity | discriminate | exact Hl].
Qed.

Lemma substring_prefix a b : String.substring 0 (String.length a) (a +:+ b) = a.
Proof.
  induction a as [|c a IH]; simpl.
  - destruct b; reflexivity.
  - f_equal. exact IH.
Qed.

Lemma slice_quoted s : Py.slice_1_m1 (dq +:+ s +:+ dq) = s.
Proof.
  unfold Py.slice_1_m1.
  change (dq +:+ s +:+ dq) with (String "034" (s +:+ dq)).
  simpl. rewrite length_append. simpl.
  replace (String.length s + 1 - 1)%nat with (String.length s) by lia.
  apply substring_prefix.
Qed.

(** The notes made of a list of quoted subjects: one bullet each. *)
Lemma render_quoted (subjects : list string) :
  subjects <> [] -> Forall (fun s => absent lf s = true) subjects ->
  render_notes (String.concat nl (map (fun s => dq +:+ s +:+ dq) subjects))
  = String.concat nl (map (fun s => "- " +:+ s) subjects).
Proof.
  intros Hne Hall. unfold render_notes, Py.join.
  rewrite split_concat.
  - rewrite List.map_map. f_equal. apply List.map_ext. intros s. rewrite slice_quoted.
    reflexivity.
  - destruct subjects; [contradiction | discriminate].
  - apply Forall_map. eapply Forall_impl; [exact Hall|]. intros s Hs. simpl.
    change (dq +:+ s +:+ dq) with (String "034" (s +:+ dq)).
    rewrite absent_cons, absent_app, Hs. reflexivity.
Qed.

(** What [git log] prints for a range: the quoted subjects of commits of
    the store. *)
Lemma log_subjects_shape g range out :
  git.log_subjects g range = Some out ->
  exists cs, (forall c, In c cs -> In c (g_commits g)) /\
             out = String.concat nl (map (fun s => dq +:+ s +:+ dq) (map c_subject cs)).
Proof.
  unfold git.log_subjects.
  destruct (git.split_range range) as [[a b]|]; [|discriminate].
  destruct (git.resolve g a); [|discriminate].
  destruct (git.resolve g b); [|discriminate].
  intros [= <-]. eexists. split; [|rewrite List.map_map; reflexivity].
  intros c Hc. apply List.filter_In in Hc. tauto.
Qed.

(** X13.  The release notes are one bullet per commit that [git log]
    lists for the two branches, in its order: the subject without the
    quotes of the format, behind a dash.  When it lists no commit the
    notes are not empty but the single bullet "- ". *)
Theorem release_notes_are_bullets args src dst w notes w' :
  make_release_notes args src dst w = (Ok notes, w') ->
  exists cs : list Commit,
    (forall c, In c cs -> In c (g_commits (w_git w))) /\
    git.log_subjects (w_git w) (notes_range src dst)
    = Some (String.concat nl (map (fun s => dq +:+ s +:+ dq) (map c_subject cs))) /\
    (cs = [] -> notes = "- ") /\
    (cs <> [] -> Forall (fun c => absent lf (c_subject c) = true) cs ->
     notes = String.concat nl (map (fun c => "- " +:+ c_subject c) cs)).
Proof.
  intros Hrun.
  pose proof (hoare_run _ _ _ _ w _ w'
                (frame_make_release_notes (fun w0 => w_git w0 = w_git w) (fun _ _ => True)
                   (fun _ _ _ H => H) (fun _ _ _ _ => Logic.I) args (fun _ _ H => H) src dst)
                eq_refl Hrun) as (Hgit & (out & Hout & Hnotes) & _).
  rewrite Hgit in Hout.
  destruct (log_subjects_shape _ _ _ Hout) as (cs & Hin & Hshape).
  exists cs. split; [exact Hin|]. split; [congruence|]. split.
  - intros ->. subst. reflexivity.
  - intros Hne Hall. subst. rewrite render_quoted.
    + rewrite List.map_map. reflexivity.
    + destruct cs; [contradiction | discriminate].
    + apply Forall_map. exact Hall.
Qed.

Lemma release_notes_are_bullets_witness :
  exists cs : list Commit,
    (cs <> [] -> Forall (fun c => absent lf (c_subject c) = true) cs ->
     "- Add feature" +:+ nl +:+ "- Hotfix on staging"
     = String.concat nl (map (fun c => "- " +:+ c_subject c) cs)).
Proof.
  destruct (release_notes_are_bullets staging_args "integration" "staging" Scenario.fine
              ("- Add feature" +:+ nl +:+ "- Hotfix on staging")
              (snd (make_release_notes staging_args "integration" "staging" Scenario.fine)))
    as (cs & _ & _ & _ & H).
  - vm_compute. reflexivity.
  - exists cs. exact H.
Defined.


(** ** Before the checks *)

(** X15.  When the directory of [--path] cannot be entered, or the
    configuration file cannot be opened, the run ends with that
    [OSError] before anything is printed or run: the world is left as it
    was (but for the working directory in the second case). *)
Theorem startup_errors args w :
  (Py.truthy (path args) = true -> path args ∉ w_dirs w ->
   script args w = (Raise (OSError (path args)), w)) /\
  (Py.truthy (path args) = true -> path args ∈ w_dirs w ->
   w_files w !! (path args, "./release_config.json") = None ->
   script args w = (Raise (OSError "./release_config.json"), set_cwd (path args) w)) /\
  (path args = EmptyString ->
   w_files w !! (w_cwd w, "./release_config.json") = None ->
   script args w = (Raise (OSError "./release_config.json"), w)).
Proof.
  unfold script, preparation, startup, bind, when, chdir, json_load, bind, read_file.
  repeat split.
  - intros Ht Hdir. rewrite Ht. rewrite bool_decide_eq_false_2 by exact Hdir. reflexivity.
  - intros Ht Hdir Hfile. rewrite Ht. rewrite bool_decide_eq_true_2 by exact Hdir.
    simpl. rewrite Hfile. reflexivity.
  - intros Hp Hfile. rewrite Hp. simpl. rewrite Hfile. reflexivity.
Qed.

Lemma startup_errors_witness :
  script (mkArgs "staging" "prerelease" false None false "/nowhere") Scenario.fine
  = (Raise (OSError "/nowhere"), Scenario.fine).
Proof.
  destruct (startup_errors (mkArgs "staging" "prerelease" false None false "/nowhere")
              Scenario.fine) as (H & _).
  apply H; [reflexivity|]. vm_compute. intros H'. inversion H'.
Defined.


(** X16.  A stage that the configuration does not know ends the run
    with an exception before any command is run: the world is as the
    reading of the configuration left it, and the exception is the
    [KeyError] of the stage whenever a token can be found. *)
Theorem unknown_stage args w config w1 :
  startup args w = (Ok config, w1) ->
  stage args <> "prod" ->
  release_map config !! stage args = None ->
  exists e, script args w = (Raise e, w1) /\
            (forall t, fst (resolve_token w1) = Ok t -> e = KeyError (stage args)).
Proof.
  intros Hstart Hstage Hmap.
  unfold script, preparation, bind. rewrite Hstart.
  unfold check_release_type. apply String.eqb_neq in Hstage. rewrite Hstage.
  cbn [andb ret]. unfold prepare, bind.
  pose proof (resolve_token_world w1) as Hw.
  destruct (resolve_token w1) as [[t|e] w2]; simpl in Hw; subst w2.
  - rewrite Hmap. cbn [lift raise]. eexists. split; [reflexivity|]. reflexivity.
  - eexists. split; [reflexivity|]. intros t [=].
Qed.

Lemma unknown_stage_witness :
  script (mkArgs "production" "prerelease" false None false EmptyString) Scenario.fine
  = (Raise (KeyError "production"), Scenario.fine).
Proof.
  destruct (unknown_stage (mkArgs "production" "prerelease" false None false EmptyString)
              Scenario.fine Scenario.config Scenario.fine)
    as (e & Hrun & He).
  - vm_compute. reflexivity.
  - discriminate.
  - vm_compute. reflexivity.
  - rewrite Hrun. rewrite (He "t0k3n"); [reflexivity|]. vm_compute. reflexivity.
Defined.

(** ** The checks, further *)

(** X17.  With [--force], [check_diff] never stops the run: as long as
    [HEAD] names a commit it returns, whatever [git log] prints, and it
    changes nothing but the log. *)
Theorem forced_check_diff_returns args src dst w :
  force args = true ->
  git.head_commit (w_git w) <> None ->
  fst (check_diff args src dst w) = Ok tt /\
  same_repo w (snd (check_diff args src dst w)) /\
  same_files w (snd (check_diff args src dst w)).
Proof.
  intros Hforce Hhead.
  unfold check_diff, _subprocess, bind, print, subprocess_run.
  rewrite decode_log_paths. simpl. unfold git.log_paths.
  destruct (git.head_commit (w_git w)) as [h|]; [|contradiction]. simpl.
  rewrite Hforce.
  destruct (String.concat _ _) as [|c out]; simpl;
    (split; [reflexivity|]);
    (split; [repeat (apply same_repo_log; [reflexivity|]); apply same_repo_refl
            | split; reflexivity]).
Qed.

Lemma forced_check_diff_returns_witness :
  fst (check_diff (mkArgs "staging" "prerelease" true None false EmptyString)
         "integration" "staging" Scenario.fine) = Ok tt.
Proof.
  apply forced_check_diff_returns; [reflexivity|].
  vm_compute. discriminate.
Defined.

(** ** The command line, further *)

(** X18.  For every command line that is accepted, the function
    [bump_<release>] that [update_version] looks up exists: the bump of a
    version that parses returns a version, and no [AttributeError] can be
    raised. *)
Theorem accepted_release_bumps a args version v w :
  parse_args a = Ok args ->
  semver.parse_version_info version = Some v ->
  In (release args) choices /\
  exists new, bump (release args) version w = (Ok new, w).
Proof.
  intros Hparse Hv.
  destruct (bump_kind version) as (Hmajor & Hminor & Hpatch & Hpre).
  destruct (parse_args_fields a args Hparse) as (_ & _ & _ & _ & [[_ Hr]|[_ Hr]]).
  - rewrite Hr. split; [simpl; auto|].
    rewrite Hpre. unfold semver.bump_prerelease. rewrite Hv. eexists. reflexivity.
  - unfold choices, git.mem in Hr. simpl in Hr.
    repeat (apply orb_true_iff in Hr as [Hr|Hr]); try discriminate;
      apply String.eqb_eq in Hr; rewrite Hr; (split; [simpl; auto|]).
    + rewrite Hmajor. unfold semver.bump_major. rewrite Hv. eexists. reflexivity.
    + rewrite Hminor. unfold semver.bump_minor. rewrite Hv. eexists. reflexivity.
    + rewrite Hpatch. unfold semver.bump_patch. rewrite Hv. eexists. reflexivity.
    + rewrite Hpre. unfold semver.bump_prerelease. rewrite Hv. eexists. reflexivity.
Qed.

Lemma accepted_release_bumps_witness :
  exists new, bump "minor" "1.2.3" Scenario.fine = (Ok new, Scenario.fine).
Proof.
  destruct (accepted_release_bumps (mkArgv (Some "staging") (Some "minor") false None false None)
              (mkArgs "staging" "minor" false None false EmptyString) "1.2.3"
              (semver.mkVersion 1 2 3 None None) Scenario.fine eq_refl eq_refl) as (_ & H).
  exact H.
Defined.

(** ** The name of the repository *)











(** ** Before the promotion *)


